(** * K'UHUL Atomic Expert model builder: quantization engine and
      cluster allocation planner

    A shallow embedding of [src/cluster/model_builder.py]:

    - [PyFloat]: Python's [float] as IEEE-754 binary64, on the Standard
      Library's executable specification [SpecFloat] (precision 53,
      [emax] 1024), with the exceptions Python raises where IEEE would
      return a special value;
    - [Precision], [TensorSpec], [ExpertTensor], [AtomicExpertConfig];
    - the static methods of [QuantizationEngine]: [compute_scale_zp],
      [quantize_tensor], [_pack_values];
    - the methods of [ExpertBuilder] and [ClusterBuilder]: [build_expert],
      [build_router], [parse_memory], [expand_expert_pattern],
      [build_allocation], [generate_deployment_plan].

    Python [int] is [Z]; [bytes] is a list of [Z] in [0, 255]; [str] is
    [string] (code points below 128, so [upper] and [strip] are the
    ASCII ones); a [dict] read in insertion order is an association
    list; an exception is the left summand of [result]. *)

From Stdlib Require Import ZArith List String Ascii Bool Lia QArith Qabs Qround.
From Stdlib Require Import Floats.SpecFloat.
Import ListNotations.

Local Open Scope Z_scope.

(** ** Exceptions *)

Inductive py_error : Type :=
  | ValueError
  | ZeroDivisionError
  | OverflowError
  | StructError.

Definition result (A : Type) : Type := (py_error + A)%type.

Definition ret {A : Type} (a : A) : result A := inr a.
Definition raise {A : Type} (e : py_error) : result A := inl e.

Definition bind {A B : Type} (c : result A) (k : A -> result B) : result B :=
  match c with
  | inl e => inl e
  | inr a => k a
  end.

Declare Scope py_scope.
Delimit Scope py_scope with py.
Notation "x <- c ;; k" := (bind c (fun x => k))
  (at level 61, c at next level, right associativity) : py_scope.
Local Open Scope py_scope.

(** [for x in xs: ys.append(f(x))], stopping at the first exception. *)
Fixpoint mapM {A B : Type} (f : A -> result B) (xs : list A) : result (list B) :=
  match xs with
  | [] => ret []
  | x :: xs' =>
      y <- f x ;;
      ys <- mapM f xs' ;;
      ret (y :: ys)
  end.

(** ** Python floats *)

Module PyFloat.

Definition prec : Z := 53.
Definition emax : Z := 1024.

Definition float : Type := spec_float.

Definition is_zero (x : float) : bool :=
  match x with
  | S754_zero _ => true
  | _ => false
  end.

(** [float(n)] for an [int] n: nearest double, ties to even;
    [OverflowError] when n is too large. *)
Definition of_int (n : Z) : result float :=
  match binary_normalize prec emax n 0 false with
  | S754_infinity _ => raise OverflowError
  | f => ret f
  end.

Definition sub (x y : float) : float := SFsub prec emax x y.
Definition mul (x y : float) : float := SFmul prec emax x y.

(** [x / y]: [ZeroDivisionError] on a zero divisor of either sign. *)
Definition div (x y : float) : result float :=
  if is_zero y then raise ZeroDivisionError
  else ret (SFdiv prec emax x y).

Definition lt (x y : float) : bool := SFltb x y.
Definition gt (x y : float) : bool := SFltb y x.

(** [int(x)]: truncation toward zero. *)
Definition truncate (x : float) : result Z :=
  match x with
  | S754_nan => raise ValueError
  | S754_infinity _ => raise OverflowError
  | S754_zero _ => ret 0
  | S754_finite s m e =>
      let a := match e with
               | Zneg p => Z.shiftr (Zpos m) (Zpos p)
               | _ => Z.shiftl (Zpos m) e
               end in
      ret (if s then - a else a)
  end.

(** [round(x)] with one argument: nearest integer, ties to even. *)
Definition round (x : float) : result Z :=
  match x with
  | S754_nan => raise ValueError
  | S754_infinity _ => raise OverflowError
  | S754_zero _ => ret 0
  | S754_finite s m e =>
      let a := match e with
               | Zneg p =>
                   let d := Z.shiftl 1 (Zpos p) in
                   let q := Zpos m / d in
                   let r := Zpos m mod d in
                   match 2 * r ?= d with
                   | Lt => q
                   | Gt => q + 1
                   | Eq => if Z.even q then q else q + 1
                   end
               | _ => Z.shiftl (Zpos m) e
               end in
      ret (if s then - a else a)
  end.

(** [a / b] on two [int]s: the correctly rounded quotient. *)
Definition int_true_div (a b : Z) : result float :=
  if b =? 0 then raise ZeroDivisionError
  else
    let negate := xorb (a <? 0) (b <? 0) in
    if a =? 0 then ret (S754_zero negate)
    else
      let '(mz, ez, lz) :=
        SFdiv_core_binary prec emax (Z.abs a) 0 (Z.abs b) 0 in
      match binary_round_aux prec emax negate mz ez lz with
      | S754_infinity _ => raise OverflowError
      | f => ret f
      end.

(** The exact value of a finite float, as a rational. *)
Definition to_Q (x : float) : Q :=
  match x with
  | S754_finite s m e =>
      let a := (inject_Z (Zpos m) * Qpower 2 e)%Q in
      if s then Qopp a else a
  | _ => 0%Q
  end.

(** The float nearest to [m * 2^e]. *)
Definition lit (m e : Z) : float := binary_normalize prec emax m e false.

Definition zero : float := S754_zero false.
Definition one : float := Eval cbv in binary_normalize prec emax 1 0 false.
Definition half : float := Eval cbv in binary_normalize prec emax 1 (-1) false.
Definition quarter : float := Eval cbv in binary_normalize prec emax 1 (-2) false.

End PyFloat.

(** A Python number that is either an [int] or a [float]. *)
Inductive pynum : Type :=
  | PyInt (n : Z)
  | PyFloatV (x : PyFloat.float).

(** [n * x] for an [int] n. *)
Definition int_mul (n : Z) (x : pynum) : result pynum :=
  match x with
  | PyInt k => ret (PyInt (n * k))
  | PyFloatV f =>
      nf <- PyFloat.of_int n ;;
      ret (PyFloatV (PyFloat.mul nf f))
  end.

(** [int(x)]. *)
Definition py_int (x : pynum) : result Z :=
  match x with
  | PyInt k => ret k
  | PyFloatV f => PyFloat.truncate f
  end.

(** ** Precision types *)

Inductive Precision : Type :=
  | INT2
  | INT4
  | INT8
  | FP16
  | BF16
  | FP32.

Definition bytes_per_element (p : Precision) : pynum :=
  match p with
  | INT2 => PyFloatV PyFloat.quarter
  | INT4 => PyFloatV PyFloat.half
  | INT8 => PyInt 1
  | FP16 => PyInt 2
  | BF16 => PyInt 2
  | FP32 => PyInt 4
  end.

Definition bit_width (p : Precision) : Z :=
  match p with
  | INT2 => 2
  | INT4 => 4
  | INT8 => 8
  | FP16 => 16
  | BF16 => 16
  | FP32 => 32
  end.

(** ** Tensor structures *)

Record TensorSpec : Type := {
  name : string;
  shape : list Z;
  precision : Precision;
  quantization_scale : option PyFloat.float;
  quantization_zero_point : option Z
}.

(** [result = 1; for dim in self.shape: result *= dim]. *)
Definition numel (t : TensorSpec) : Z :=
  fold_left (fun result dim => result * dim) (shape t) 1.

Definition size_bytes (t : TensorSpec) : result Z :=
  x <- int_mul (numel t) (bytes_per_element (precision t)) ;;
  py_int x.

Record ExpertTensor : Type := {
  expert_id : string;
  up_proj : TensorSpec;
  down_proj : TensorSpec;
  gate_proj : option TensorSpec
}.

Definition total_bytes (e : ExpertTensor) : result Z :=
  u <- size_bytes (up_proj e) ;;
  d <- size_bytes (down_proj e) ;;
  let total := u + d in
  match gate_proj e with
  | Some g =>
      s <- size_bytes g ;;
      ret (total + s)
  | None => ret total
  end.


(** ** Model configuration *)

Record AtomicExpertConfig : Type := {
  total_experts : Z;
  active_experts : Z;
  expert_dim : Z;
  shared_dim : Z;
  hidden_dim : Z;
  vocab_size : Z;
  num_layers : Z;
  expert_precision : Precision;
  router_precision : Precision;
  shared_precision : Precision
}.

(** ** Built-ins used by the engine *)

(** [range(start, stop, step)] for a positive step, by the iteration it
    stands for: [i = start; while i < stop: yield i; i += step]. *)
Fixpoint range_loop (fuel i stop step : nat) : list nat :=
  match fuel with
  | O => []
  | S fuel' =>
      if (i <? stop)%nat then i :: range_loop fuel' (i + step) stop step
      else []
  end.

Definition range (start stop step : nat) : list nat :=
  range_loop stop start stop step.

(** [min(values)] and [max(values)]: the first element is kept until a
    later one compares strictly below (above) it. *)
Fixpoint min_from (cur : PyFloat.float) (xs : list PyFloat.float) : PyFloat.float :=
  match xs with
  | [] => cur
  | x :: xs' => min_from (if PyFloat.lt x cur then x else cur) xs'
  end.

Fixpoint max_from (cur : PyFloat.float) (xs : list PyFloat.float) : PyFloat.float :=
  match xs with
  | [] => cur
  | x :: xs' => max_from (if PyFloat.gt x cur then x else cur) xs'
  end.

Definition py_min (xs : list PyFloat.float) : result PyFloat.float :=
  match xs with
  | [] => raise ValueError
  | x :: xs' => ret (min_from x xs')
  end.

Definition py_max (xs : list PyFloat.float) : result PyFloat.float :=
  match xs with
  | [] => raise ValueError
  | x :: xs' => ret (max_from x xs')
  end.

(** [x / n] and [n - x] with an [int] n: n is converted first. *)
Definition float_div_int (x : PyFloat.float) (n : Z) : result PyFloat.float :=
  nf <- PyFloat.of_int n ;;
  PyFloat.div x nf.

Definition int_sub_float (n : Z) (x : PyFloat.float) : result PyFloat.float :=
  nf <- PyFloat.of_int n ;;
  ret (PyFloat.sub nf x).

(** [bytes(values)]: every item must be in [range(256)]. *)
Definition bytes_of_ints (values : list Z) : result (list Z) :=
  mapM (fun v => if (0 <=? v) && (v <? 256) then ret v else raise ValueError)
       values.

(** ** [struct.pack] for the formats ['e'] and ['f']

    Native byte order is taken to be little-endian. The argument is an
    [int] here: it is converted to a double first, and [struct] reports
    a failure of that conversion, and any [OverflowError] of the packing
    of an [int], as its own error. *)
Module Struct.

Definition as_double (v : Z) : result PyFloat.float :=
  match PyFloat.of_int v with
  | inl _ => raise StructError
  | inr x => ret x
  end.

Definition sign_bit (s : bool) (pos : Z) : Z :=
  if s then Z.shiftl 1 pos else 0.

(** IEEE binary16 (1-5-10): nearest, ties to even; a finite value that
    rounds beyond the largest half is an [OverflowError]. *)
Definition half_bits (x : PyFloat.float) : result Z :=
  match x with
  | S754_zero s => ret (sign_bit s 15)
  | S754_infinity s => ret (Z.lor (sign_bit s 15) 0x7C00)
  | S754_nan => ret 0x7E00
  | S754_finite s m e =>
      match binary_round 11 16 s m e with
      | S754_zero s' => ret (sign_bit s' 15)
      | S754_finite s' m' e' =>
          let body :=
            if Zpos m' <? 1024 then Zpos m'
            else Z.lor (Z.shiftl (e' + 25) 10) (Zpos m' - 1024) in
          ret (Z.lor (sign_bit s' 15) body)
      | _ => raise OverflowError
      end
  end.

(** IEEE binary32 by the C cast [(float)x]: an overflow gives an
    infinity. *)
Definition single_bits (x : PyFloat.float) : Z :=
  let encode y :=
    match y with
    | S754_zero s => sign_bit s 31
    | S754_infinity s => Z.lor (sign_bit s 31) 0x7F800000
    | S754_nan => 0x7FC00000
    | S754_finite s m e =>
        let body :=
          if Zpos m <? 8388608 then Zpos m
          else Z.lor (Z.shiftl (e + 150) 23) (Zpos m - 8388608) in
        Z.lor (sign_bit s 31) body
    end in
  match x with
  | S754_finite s m e => encode (binary_round 24 128 s m e)
  | _ => encode x
  end.

Definition le_bytes (n : nat) (bits : Z) : list Z :=
  map (fun k => Z.land (Z.shiftr bits (8 * Z.of_nat k)) 255) (seq 0 n).

Definition pack_e (v : Z) : result (list Z) :=
  match (x <- as_double v ;;
         bits <- half_bits x ;;
         ret (le_bytes 2 bits)) with
  | inl OverflowError => raise StructError
  | r => r
  end.

Definition pack_f (v : Z) : result (list Z) :=
  x <- as_double v ;;
  ret (le_bytes 4 (single_bits x)).

End Struct.

(** ** Quantization engine *)

Definition compute_scale_zp (min_val max_val : PyFloat.float)
    (precision : Precision) : result (PyFloat.float * Z) :=
  let bit_width := bit_width precision in
  let qmin := 0 in
  let qmax := Z.shiftl 1 bit_width - 1 in
  scale <- float_div_int (PyFloat.sub max_val min_val) (qmax - qmin) ;;
  t <- PyFloat.div min_val scale ;;
  u <- int_sub_float qmin t ;;
  zero_point <- PyFloat.round u ;;
  let zero_point := Z.max qmin (Z.min qmax zero_point) in
  ret (scale, zero_point).

(** Pack quantized values into bytes. *)
Definition _pack_values (values : list Z) (precision : Precision)
    : result (list Z) :=
  let len := List.length values in
  match precision with
  | INT2 =>
      ret (map (fun i =>
                  fold_left
                    (fun byte j =>
                       if (i + j <? len)%nat
                       then Z.lor byte
                              (Z.shiftl (Z.land (nth (i + j) values 0) 3)
                                        (Z.of_nat j * 2))
                       else byte)
                    (range 0 4 1) 0)
               (range 0 len 4))
  | INT4 =>
      ret (map (fun i =>
                  let low := Z.land (nth i values 0) 15 in
                  let high :=
                    if (i + 1 <? len)%nat
                    then Z.land (nth (i + 1) values 0) 15
                    else 0 in
                  Z.lor low (Z.shiftl high 4))
               (range 0 len 2))
  | INT8 => bytes_of_ints values
  | FP16 | BF16 =>
      chunks <- mapM Struct.pack_e values ;;
      ret (List.concat chunks)
  | FP32 =>
      chunks <- mapM Struct.pack_f values ;;
      ret (List.concat chunks)
  end.

(** The body of the quantization loop, for one value. *)
Definition quantize_value (scale : PyFloat.float) (zero_point : Z)
    (precision : Precision) (v : PyFloat.float) : result Z :=
  x <- PyFloat.div v scale ;;
  r <- PyFloat.round x ;;
  let q := r + zero_point in
  ret (Z.max 0 (Z.min (Z.shiftl 1 (bit_width precision) - 1) q)).

Definition quantize_tensor (values : list PyFloat.float)
    (precision : Precision) : result (list Z * PyFloat.float * Z) :=
  match values with
  | [] => ret ([], PyFloat.one, 0)
  | _ =>
      min_val <- py_min values ;;
      max_val <- py_max values ;;
      sz <- compute_scale_zp min_val max_val precision ;;
      let '(scale, zero_point) := sz in
      quantized <- mapM (quantize_value scale zero_point precision) values ;;
      packed <- _pack_values quantized precision ;;
      ret (packed, scale, zero_point)
  end.


(** ** Expert builder *)

Definition build_expert (config : AtomicExpertConfig) (expert_id : string)
    : ExpertTensor :=
  let precision := expert_precision config in
  let up_proj :=
    {| name := expert_id ++ ".up_proj";
       shape := [expert_dim config; hidden_dim config];
       precision := precision;
       quantization_scale := None;
       quantization_zero_point := None |} in
  let down_proj :=
    {| name := expert_id ++ ".down_proj";
       shape := [hidden_dim config; expert_dim config];
       precision := precision;
       quantization_scale := None;
       quantization_zero_point := None |} in
  let gate_proj :=
    {| name := expert_id ++ ".gate_proj";
       shape := [expert_dim config; hidden_dim config];
       precision := precision;
       quantization_scale := None;
       quantization_zero_point := None |} in
  {| expert_id := expert_id;
     up_proj := up_proj;
     down_proj := down_proj;
     gate_proj := Some gate_proj |}.

Definition build_router (config : AtomicExpertConfig) : TensorSpec :=
  {| name := "router.weight";
     shape := [shared_dim config; total_experts config];
     precision := router_precision config;
     quantization_scale := None;
     quantization_zero_point := None |}.

(** ** String built-ins *)

Module PyStr.

Definition upper_char (c : ascii) : ascii :=
  let n := nat_of_ascii c in
  if ((97 <=? n) && (n <=? 122))%nat then ascii_of_nat (n - 32) else c.

Fixpoint upper (s : string) : string :=
  match s with
  | EmptyString => EmptyString
  | String c s' => String (upper_char c) (upper s')
  end.

Definition is_space (c : ascii) : bool :=
  let n := nat_of_ascii c in
  (((9 <=? n) && (n <=? 13)) || ((28 <=? n) && (n <=? 32)))%nat.

Fixpoint lstrip (s : string) : string :=
  match s with
  | EmptyString => EmptyString
  | String c s' => if is_space c then lstrip s' else s
  end.

(** Drops trailing white space: a character is kept when it is not a
    space or when something is kept after it. *)
Fixpoint rstrip (s : string) : string :=
  match s with
  | EmptyString => EmptyString
  | String c s' =>
      match rstrip s' with
      | EmptyString => if is_space c then EmptyString else String c EmptyString
      | t => String c t
      end
  end.

Definition strip (s : string) : string := rstrip (lstrip s).

(** [s.startswith(p)]. *)
Fixpoint startswith (s p : string) {struct p} : bool :=
  match p, s with
  | EmptyString, _ => true
  | String a p', String b s' => Ascii.eqb a b && startswith s' p'
  | String _ _, EmptyString => false
  end.

(** [s.endswith(suf)]: the last [len(suf)] characters are [suf]. *)
Definition endswith (s suf : string) : bool :=
  let n := String.length s in
  let k := String.length suf in
  (k <=? n)%nat && String.eqb (substring (n - k) k s) suf.

(** [s[:-k]] for [k >= 1]. *)
Definition drop_last (k : nat) (s : string) : string :=
  substring 0 (String.length s - k) s.

Definition is_digit (c : ascii) : bool :=
  let n := nat_of_ascii c in ((48 <=? n) && (n <=? 57))%nat.

Definition digit_value (c : ascii) : Z := Z.of_nat (nat_of_ascii c - 48).

(** Underscores in a numeric literal: each one stands between two
    digits; they are removed. [prev] is the character before, NUL at the
    start. *)
Fixpoint strip_underscores (prev : ascii) (s : string) : option string :=
  match s with
  | EmptyString => if Ascii.eqb prev "_" then None else Some EmptyString
  | String c s' =>
      if Ascii.eqb c "_" then
        if is_digit prev then strip_underscores c s' else None
      else if Ascii.eqb prev "_" && negb (is_digit c) then None
      else option_map (String c) (strip_underscores c s')
  end.

(** The longest prefix of digits, as (number of digits, value so far,
    rest). *)
Fixpoint digits_from (count : nat) (acc : Z) (s : string) : nat * Z * string :=
  match s with
  | String c s' =>
      if is_digit c then digits_from (S count) (10 * acc + digit_value c) s'
      else (count, acc, s)
  | EmptyString => (count, acc, s)
  end.

Definition take_sign (s : string) : bool * string :=
  match s with
  | String c s' =>
      if Ascii.eqb c "-" then (true, s')
      else if Ascii.eqb c "+" then (false, s')
      else (false, s)
  | EmptyString => (false, s)
  end.

(** [int(s)], base 10. *)
Definition to_int (s : string) : result Z :=
  match strip_underscores Ascii.zero (strip s) with
  | None => raise ValueError
  | Some t =>
      let '(neg, body) := take_sign t in
      match digits_from 0 0 body with
      | (S _, n, EmptyString) => ret (if neg then - n else n)
      | _ => raise ValueError
      end
  end.

(** The double nearest to [m * 10^e] for [m >= 0]. *)
Definition decimal_to_float (neg : bool) (m e : Z) : PyFloat.float :=
  if m =? 0 then S754_zero neg
  else if 0 <=? e then
    binary_normalize PyFloat.prec PyFloat.emax
      ((if neg then - m else m) * 10 ^ e) 0 false
  else
    let '(mz, ez, lz) :=
      SFdiv_core_binary PyFloat.prec PyFloat.emax m 0 (10 ^ (- e)) 0 in
    binary_round_aux PyFloat.prec PyFloat.emax neg mz ez lz.

(** The exponent part of a float literal: empty, or [E], an optional
    sign and at least one digit. *)
Definition exponent_part (s : string) : option Z :=
  match s with
  | EmptyString => Some 0
  | String c s' =>
      if Ascii.eqb c "E" || Ascii.eqb c "e" then
        let '(neg, body) := take_sign s' in
        match digits_from 0 0 body with
        | (S _, n, EmptyString) => Some (if neg then - n else n)
        | _ => None
        end
      else None
  end.

(** [float(s)]: white space is stripped; the literal is an optional
    sign followed by [inf], [infinity], [nan] in any case, or by a
    decimal number with an optional fraction and exponent. *)
Definition to_float (s : string) : result PyFloat.float :=
  match strip_underscores Ascii.zero (strip s) with
  | None => raise ValueError
  | Some t =>
      let '(neg, body) := take_sign t in
      let special := upper body in
      if String.eqb special "INF" || String.eqb special "INFINITY"
      then ret (S754_infinity neg)
      else if String.eqb special "NAN" then ret S754_nan
      else
        let '(n1, ip, r1) := digits_from 0 0 body in
        let '(n2, m, r2) :=
          match r1 with
          | String c r =>
              if Ascii.eqb c "." then digits_from 0 ip r else (O, ip, r1)
          | EmptyString => (O, ip, r1)
          end in
        match (n1 + n2)%nat, exponent_part r2 with
        | S _, Some e => ret (decimal_to_float neg m (e - Z.of_nat n2))
        | _, _ => raise ValueError
        end
  end.

End PyStr.

(** [x * n] for a [float] x and an [int] n. *)
Definition float_mul_int (x : PyFloat.float) (n : Z) : result PyFloat.float :=
  nf <- PyFloat.of_int n ;;
  ret (PyFloat.mul x nf).

(** ** Cluster builder *)

Record NodeAllocation : Type := {
  node_id : string;
  device : string;
  memory_budget : Z;
  experts : list string;
  memory_used : Z
}.

Definition units : list (string * Z) :=
  [("B", 1); ("KB", 1024); ("MB", 1024 ^ 2); ("GB", 1024 ^ 3); ("TB", 1024 ^ 4)]%string.

(** The loop over [units.items()], in insertion order: the first unit that
    is a suffix of the text decides. *)
Fixpoint parse_memory_units (us : list (string * Z)) (mem_str : string)
    : result Z :=
  match us with
  | [] => PyStr.to_int mem_str
  | (unit, multiplier) :: us' =>
      if PyStr.endswith mem_str unit then
        x <- PyStr.to_float (PyStr.drop_last (String.length unit) mem_str) ;;
        y <- float_mul_int x multiplier ;;
        PyFloat.truncate y
      else parse_memory_units us' mem_str
  end.

(** Parse memory string like ['16GB'] to bytes. *)
Definition parse_memory (mem_str : string) : result Z :=
  let mem_str := PyStr.strip (PyStr.upper mem_str) in
  parse_memory_units units mem_str.

(** [pattern in all_experts]. *)
Definition str_in (x : string) (l : list string) : bool :=
  existsb (String.eqb x) l.

(** Expand wildcard pattern like ['math-*'] to matching experts. *)
Definition expand_expert_pattern (pattern : string) (all_experts : list string)
    : list string :=
  if PyStr.endswith pattern "*" then
    let prefix := PyStr.drop_last 1 pattern in
    filter (fun e => PyStr.startswith e prefix) all_experts
  else if str_in pattern all_experts then [pattern] else [].


(** *** The parsed configuration

    Only the keys the planner reads; a key that may be absent and has a
    default other than the empty container is an [option]. *)

Record GpuConfig : Type := {
  gpu_device : option string;
  gpu_memory : option string
}.

Record NodeConfig : Type := {
  node_config_id : option string;
  node_config_gpu : GpuConfig;
  node_config_experts : list string
}.

Record Config : Type := {
  cluster_nodes : list NodeConfig;
  registry_categories : list (string * list string)
}.

Definition get {A : Type} (o : option A) (default : A) : A :=
  match o with
  | Some a => a
  | None => default
  end.

(** [for x in xs: acc = f(acc, x)], stopping at the first exception. *)
Fixpoint foldM {A B : Type} (f : B -> A -> result B) (xs : list A) (acc : B)
    : result B :=
  match xs with
  | [] => ret acc
  | x :: xs' =>
      acc' <- f acc x ;;
      foldM f xs' acc'
  end.

(** Collect all expert ids, category by category. *)
Definition collect_experts (config : Config) : list string :=
  fold_left (fun all_experts cat => all_experts ++ snd cat)
            (registry_categories config) [].

Definition allocate_node (expert_config : AtomicExpertConfig)
    (all_experts : list string) (node : NodeConfig) : result NodeAllocation :=
  let gpu := node_config_gpu node in
  budget <- parse_memory (get (gpu_memory gpu) "8GB"%string) ;;
  let experts :=
    fold_left (fun acc pattern => acc ++ expand_expert_pattern pattern all_experts)
              (node_config_experts node) [] in
  used <- foldM (fun used expert_id =>
                   b <- total_bytes (build_expert expert_config expert_id) ;;
                   ret (used + b))
                experts 0 ;;
  ret {| node_id := get (node_config_id node) "unknown"%string;
         device := get (gpu_device gpu) "cpu"%string;
         memory_budget := budget;
         experts := experts;
         memory_used := used |}.

(** Build expert allocation across cluster nodes. *)
Definition build_allocation (config : Config)
    (expert_config : AtomicExpertConfig) : result (list NodeAllocation) :=
  let all_experts := collect_experts config in
  mapM (allocate_node expert_config all_experts) (cluster_nodes config).

(** *** The deployment plan *)

Definition precision_value (p : Precision) : string :=
  match p with
  | INT2 => "int2"
  | INT4 => "int4"
  | INT8 => "int8"
  | FP16 => "fp16"
  | BF16 => "bf16"
  | FP32 => "fp32"
  end.

Record TensorDict : Type := {
  td_name : string;
  td_shape : list Z;
  td_precision : string;
  td_size_bytes : Z;
  td_quantization : option (PyFloat.float * option Z)
}.

Definition to_dict (t : TensorSpec) : result TensorDict :=
  size <- size_bytes t ;;
  ret {| td_name := name t;
         td_shape := shape t;
         td_precision := precision_value (precision t);
         td_size_bytes := size;
         td_quantization :=
           match quantization_scale t with
           | Some sc =>
               if PyFloat.is_zero sc then None
               else Some (sc, quantization_zero_point t)
           | None => None
           end |}.

Record NodeInfo : Type := {
  ni_node_id : string;
  ni_device : string;
  memory_budget_bytes : Z;
  memory_used_bytes : Z;
  memory_utilization : pynum;
  expert_count : Z;
  ni_experts : list string
}.

Record ExpertInfo : Type := {
  ei_id : string;
  ei_node : string;
  ei_device : string;
  ei_up_proj : TensorDict;
  ei_down_proj : TensorDict;
  ei_gate_proj : option TensorDict;
  ei_total_bytes : Z
}.

Record ClusterPlan : Type := {
  nodes : list NodeInfo;
  total_memory_used : Z;
  total_memory_budget : Z
}.

Record DeploymentPlan : Type := {
  plan_config : AtomicExpertConfig;
  plan_bytes_per_expert_element : pynum;
  plan_router : TensorDict;
  cluster : ClusterPlan;
  plan_experts : list ExpertInfo
}.

(** The accumulators of the loop over the allocations. *)
Record PlanState : Type := {
  st_nodes : list NodeInfo;
  st_experts : list ExpertInfo;
  total_used : Z;
  total_budget : Z
}.

Definition expert_info (expert_config : AtomicExpertConfig)
    (alloc : NodeAllocation) (expert_id : string) : result ExpertInfo :=
  let expert := build_expert expert_config expert_id in
  up <- to_dict (up_proj expert) ;;
  down <- to_dict (down_proj expert) ;;
  gate <- match gate_proj expert with
          | Some g => d <- to_dict g ;; ret (Some d)
          | None => ret None
          end ;;
  total <- total_bytes expert ;;
  ret {| ei_id := expert_id;
         ei_node := node_id alloc;
         ei_device := device alloc;
         ei_up_proj := up;
         ei_down_proj := down;
         ei_gate_proj := gate;
         ei_total_bytes := total |}.

Definition plan_step (expert_config : AtomicExpertConfig)
    (st : PlanState) (alloc : NodeAllocation) : result PlanState :=
  utilization <-
    (if memory_budget alloc >? 0
     then x <- PyFloat.int_true_div (memory_used alloc) (memory_budget alloc) ;;
          ret (PyFloatV x)
     else ret (PyInt 0)) ;;
  let node_info :=
    {| ni_node_id := node_id alloc;
       ni_device := device alloc;
       memory_budget_bytes := memory_budget alloc;
       memory_used_bytes := memory_used alloc;
       memory_utilization := utilization;
       expert_count := Z.of_nat (List.length (experts alloc));
       ni_experts := experts alloc |} in
  details <- mapM (expert_info expert_config alloc) (experts alloc) ;;
  ret {| st_nodes := st_nodes st ++ [node_info];
         st_experts := st_experts st ++ details;
         total_used := total_used st + memory_used alloc;
         total_budget := total_budget st + memory_budget alloc |}.

(** Generate full deployment plan. *)
Definition generate_deployment_plan (config : Config)
    (expert_config : AtomicExpertConfig) : result DeploymentPlan :=
  allocations <- build_allocation config expert_config ;;
  let router := build_router expert_config in
  router_dict <- to_dict router ;;
  st <- foldM (plan_step expert_config) allocations
          {| st_nodes := []; st_experts := []; total_used := 0; total_budget := 0 |} ;;
  ret {| plan_config := expert_config;
         plan_bytes_per_expert_element :=
           bytes_per_element (expert_precision expert_config);
         plan_router := router_dict;
         cluster := {| nodes := st_nodes st;
                       total_memory_used := total_used st;
                       total_memory_budget := total_budget st |};
         plan_experts := st_experts st |}.



(** ** Notions used to state the properties *)

(** The exact value of a Python number. *)
Definition num_to_Q (x : pynum) : Q :=
  match x with
  | PyInt n => inject_Z n
  | PyFloatV f => PyFloat.to_Q f
  end.

(** [product(shape)]. *)
Definition product (l : list Z) : Z := fold_right Z.mul 1 l.

(** [floor(elementCount * bytesPerElement)], in exact arithmetic. *)
Definition floor_size (t : TensorSpec) : Z :=
  Qfloor (inject_Z (product (shape t))
          * num_to_Q (bytes_per_element (precision t)))%Q.

Definition sub_byte (p : Precision) : bool :=
  match p with
  | INT2 | INT4 => true
  | _ => false
  end.

(** The value in slot [i] of a list of quantized values, 0 past its end. *)
Definition slot (values : list Z) (i : nat) : Z := nth i values 0.

(** Byte [k] of a 2-bit packing: four slots, two bits each, lowest first. *)
Definition byte_int2 (values : list Z) (k : nat) : Z :=
  Z.lor (Z.lor (Z.lor (Z.land (slot values (4 * k)) 3)
                      (Z.shiftl (Z.land (slot values (4 * k + 1)) 3) 2))
               (Z.shiftl (Z.land (slot values (4 * k + 2)) 3) 4))
        (Z.shiftl (Z.land (slot values (4 * k + 3)) 3) 6).

(** Byte [k] of a 4-bit packing: low nibble first. *)
Definition byte_int4 (values : list Z) (k : nat) : Z :=
  Z.lor (Z.land (slot values (2 * k)) 15)
        (Z.shiftl (Z.land (slot values (2 * k + 1)) 15) 4).

Definition is_byte (b : Z) : Prop := 0 <= b < 256.

(** [sum(...)] over a list of [int]s. *)
Definition py_sum (l : list Z) : Z := fold_right Z.add 0 l.

(** The utilization of a node record: the ratio used / budget as Python
    divides two [int]s, and 0 without a positive budget. *)
Definition utilization_ok (n : NodeInfo) : Prop :=
  (memory_budget_bytes n = 0 -> memory_utilization n = PyInt 0)
  /\ (0 < memory_budget_bytes n ->
      exists x,
        PyFloat.int_true_div (memory_used_bytes n) (memory_budget_bytes n) = ret x
        /\ memory_utilization n = PyFloatV x).

(** A node record holds every expert its patterns match and the bytes of
    all of them, whatever its budget. *)
Definition full_allocation (expert_config : AtomicExpertConfig)
    (all_experts : list string) (node : NodeConfig) (n : NodeInfo) : Prop :=
  ni_experts n
  = flat_map (fun pattern => expand_expert_pattern pattern all_experts)
             (node_config_experts node)
  /\ expert_count n = Z.of_nat (List.length (ni_experts n))
  /\ exists sizes,
       mapM (fun expert_id => total_bytes (build_expert expert_config expert_id))
            (ni_experts n) = ret sizes
       /\ memory_used_bytes n = py_sum sizes.

(** The default model configuration, at 4-bit expert precision. *)
Definition default_expert_config : AtomicExpertConfig :=
  {| total_experts := 108;
     active_experts := 4;
     expert_dim := 512;
     shared_dim := 1024;
     hidden_dim := 2048;
     vocab_size := 32000;
     num_layers := 12;
     expert_precision := INT4;
     router_precision := FP16;
     shared_precision := FP16 |}.

(** One node with a budget of 1 MiB given in bytes and two experts of
    1572864 bytes each. *)
Definition small_budget_config : Config :=
  {| cluster_nodes :=
       [ {| node_config_id := Some "node-0"%string;
            node_config_gpu := {| gpu_device := Some "cuda:0"%string;
                                  gpu_memory := Some "1048576B"%string |};
            node_config_experts := ["expert-*"%string] |} ];
     registry_categories :=
       [ ("general"%string, ["expert-0"%string; "expert-1"%string]) ] |}.

(** The dequantization contract: [(q - zero_point) * scale], in exact
    arithmetic. *)
Definition dequantize (scale : PyFloat.float) (zero_point q : Z) : Q :=
  (inject_Z (q - zero_point) * PyFloat.to_Q scale)%Q.

Definition float_kind (p : Precision) : bool :=
  match p with
  | FP16 | BF16 | FP32 => true
  | _ => false
  end.

(** The format [_pack_values] packs a float kind with, and its width. *)
Definition struct_pack (p : Precision) (v : Z) : result (list Z) :=
  match p with
  | FP32 => Struct.pack_f v
  | _ => Struct.pack_e v
  end.

Definition float_width (p : Precision) : nat :=
  match p with
  | FP32 => 4%nat
  | _ => 2%nat
  end.

(** The bfloat16 layout as the specification words it: the upper 16 bits
    of the 32-bit float. *)
Definition spec_pack_bfloat16 (values : list Z) : result (list Z) :=
  chunks <- mapM (fun v =>
                    x <- Struct.as_double v ;;
                    ret (Struct.le_bytes 2 (Z.shiftr (Struct.single_bits x) 16)))
                 values ;;
  ret (List.concat chunks).

(** A 2-bit tensor of [2^53 + 3] elements. *)
Definition huge_int2_tensor : TensorSpec :=
  {| name := "huge";
     shape := [9007199254740995];
     precision := INT2;
     quantization_scale := None;
     quantization_zero_point := None |}.

(** The tensor of the specification's example: (512, 2048) at 4 bits. *)
Definition example_int4_tensor : TensorSpec :=
  {| name := "expert-0.up_proj";
     shape := [512; 2048];
     precision := INT4;
     quantization_scale := None;
     quantization_zero_point := None |}.

(** The letters that come before [B] in the units [KB], [MB], [GB], [TB]. *)
Definition unit_letter (c : ascii) : Prop :=
  In c ["K"; "M"; "G"; "T"]%char.

(** The last character of a string. *)
Fixpoint last_char (s : string) : option ascii :=
  match s with
  | EmptyString => None
  | String c EmptyString => Some c
  | String _ s' => last_char s'
  end.

(** What one allocation becomes in the plan. *)
Definition node_of_alloc (alloc : NodeAllocation) (n : NodeInfo) : Prop :=
  memory_budget_bytes n = memory_budget alloc
  /\ memory_used_bytes n = memory_used alloc
  /\ ni_experts n = experts alloc
  /\ expert_count n = Z.of_nat (List.length (experts alloc))
  /\ utilization_ok n.

(** * The rest of the module *)

(** ** Precision by value and the configuration reader *)

Definition all_precisions : list Precision :=
  [INT2; INT4; INT8; FP16; BF16; FP32].

(** [Precision(value)]: the member with that value, [ValueError] when
    there is none. *)
Definition Precision_of_value (value : string) : result Precision :=
  match find (fun p => String.eqb (precision_value p) value) all_precisions with
  | Some p => ret p
  | None => raise ValueError
  end.

(** The keys [from_json] reads under ["model"], each possibly absent. *)
Record ModelJson : Type := {
  totalExperts : option Z;
  activeExperts : option Z;
  dimensions_expert : option Z;
  dimensions_shared : option Z;
  dimensions_hidden : option Z;
  dimensions_vocab : option Z;
  quantization_expertPrecision : option string;
  quantization_routerPrecision : option string
}.

Definition from_json (model : ModelJson) : result AtomicExpertConfig :=
  expert_precision <-
    Precision_of_value (get (quantization_expertPrecision model) "int8"%string) ;;
  router_precision <-
    Precision_of_value (get (quantization_routerPrecision model) "fp16"%string) ;;
  ret {| total_experts := get (totalExperts model) 108;
         active_experts := get (activeExperts model) 4;
         expert_dim := get (dimensions_expert model) 512;
         shared_dim := get (dimensions_shared model) 1024;
         hidden_dim := get (dimensions_hidden model) 2048;
         vocab_size := get (dimensions_vocab model) 32000;
         num_layers := 12;
         expert_precision := expert_precision;
         router_precision := router_precision;
         shared_precision := FP16 |}.

(** The configuration without any key. *)
Definition empty_model_json : ModelJson :=
  {| totalExperts := None;
     activeExperts := None;
     dimensions_expert := None;
     dimensions_shared := None;
     dimensions_hidden := None;
     dimensions_vocab := None;
     quantization_expertPrecision := None;
     quantization_routerPrecision := None |}.

(** Build all expert tensors. *)
Definition build_all_experts (config : AtomicExpertConfig)
    (expert_ids : list string) : list ExpertTensor :=
  map (build_expert config) expert_ids.

(** A configuration with one node that has no [gpu.memory] entry. *)
Definition no_memory_config : Config :=
  {| cluster_nodes :=
       [ {| node_config_id := Some "node-0"%string;
            node_config_gpu := {| gpu_device := None; gpu_memory := None |};
            node_config_experts := [] |} ];
     registry_categories := [] |}.

(** The node record and the detail records the plan holds for one
    allocation. *)
Definition record_of_alloc (ec : AtomicExpertConfig) (alloc : NodeAllocation)
    (nd : NodeInfo * list ExpertInfo) : Prop :=
  ni_node_id (fst nd) = node_id alloc
  /\ ni_device (fst nd) = device alloc
  /\ memory_budget_bytes (fst nd) = memory_budget alloc
  /\ memory_used_bytes (fst nd) = memory_used alloc
  /\ ni_experts (fst nd) = experts alloc
  /\ expert_count (fst nd) = Z.of_nat (List.length (experts alloc))
  /\ mapM (expert_info ec alloc) (experts alloc) = ret (snd nd).


(** ** Notions for the packing properties *)

Definition int_kind (p : Precision) : bool :=
  match p with
  | INT2 | INT4 | INT8 => true
  | _ => false
  end.

(** A float that is an infinity or a NaN. *)
Definition non_finite (x : PyFloat.float) : bool :=
  match x with
  | S754_nan | S754_infinity _ => true
  | _ => false
  end.

(** The codes of the 16-bit range from 65520 on. *)
Definition top_codes16 : list Z :=
  [65520; 65521; 65522; 65523; 65524; 65525; 65526; 65527;
   65528; 65529; 65530; 65531; 65532; 65533; 65534; 65535].

(** How many values [_pack_values] puts in one byte. *)
Definition values_per_byte (p : Precision) : Z :=
  match p with
  | INT2 => 4
  | INT4 => 2
  | _ => 1
  end.

(** A 2-bit tensor of five elements. *)
Definition five_int2_tensor : TensorSpec :=
  {| name := "five";
     shape := [5];
     precision := INT2;
     quantization_scale := None;
     quantization_zero_point := None |}.

(** ** The dequantization kernels

    The integer part of the CUDA kernels that [generate_dequant_kernel]
    returns as text: which byte of [input] the element [idx] is read
    from, and which bits of it. The kernels then compute
    [(float)(val - zero_point) * scale]. [input] is a byte buffer; a
    read past its end is not defined. *)

(** [packed = input[idx / 2]];
    [nibble = (idx % 2 == 0) ? (packed & 0xF) : ((packed >> 4) & 0xF)]. *)
Definition dequant_int4_nibble (input : list Z) (idx : nat) : option Z :=
  match nth_error input (idx / 2) with
  | Some packed =>
      Some (if (idx mod 2 =? 0)%nat then Z.land packed 15
            else Z.land (Z.shiftr packed 4) 15)
  | None => None
  end.

(** [packed = input[idx / 4]]; [shift = (idx % 4) * 2];
    [val = (packed >> shift) & 0x3]. *)
Definition dequant_int2_val (input : list Z) (idx : nat) : option Z :=
  match nth_error input (idx / 4) with
  | Some packed =>
      let shift := Z.of_nat (idx mod 4) * 2 in
      Some (Z.land (Z.shiftr packed shift) 3)
  | None => None
  end.

(** [input[idx]] with [input] an array of [int8_t]: the byte as a signed
    8-bit integer. *)
Definition dequant_int8_input (input : list Z) (idx : nat) : option Z :=
  match nth_error input idx with
  | Some b => Some (if b <? 128 then b else b - 256)
  | None => None
  end.

(** ** Byte counts in decimal *)

(** The number that a string of decimal digits writes. *)
Definition decimal_value (s : string) : Z :=
  fold_left (fun acc c => 10 * acc + PyStr.digit_value c)
            (list_ascii_of_string s) 0.

(** A non-empty string of the digits [0] to [9]. *)
Definition all_digits (s : string) : Prop :=
  s <> EmptyString
  /\ Forall (fun c => PyStr.is_digit c = true) (list_ascii_of_string s).

(** ** Model exporter *)

(** A [dict] with [str] keys, in insertion order. *)
Fixpoint dict_get {V : Type} (d : list (string * V)) (key : string) : option V :=
  match d with
  | [] => None
  | (k, v) :: d' => if String.eqb k key then Some v else dict_get d' key
  end.

(** [d[key] = value]: a key that is present keeps its place and takes
    the new value, a new key is added at the end. *)
Fixpoint dict_set {V : Type} (d : list (string * V)) (key : string) (value : V)
    : list (string * V) :=
  match d with
  | [] => [(key, value)]
  | (k, v) :: d' =>
      if String.eqb k key then (k, value) :: d'
      else (k, v) :: dict_set d' key value
  end.

Record ManifestEntry : Type := {
  dtype : string;
  entry_shape : list Z;
  data_offsets : Z * Z
}.

Record Manifest : Type := {
  metadata_format : string;
  metadata_version : string;
  metadata_total_experts : Z;
  metadata_active_experts : Z;
  tensors : list (string * ManifestEntry)
}.

(** The entry written for one tensor. *)
Definition manifest_entry (config : AtomicExpertConfig) (t : TensorSpec)
    : result ManifestEntry :=
  size <- size_bytes t ;;
  ret {| dtype := precision_value (expert_precision config);
         entry_shape := shape t;
         data_offsets := (0, size) |}.

(** The body of the loop over the experts. *)
Definition export_expert (config : AtomicExpertConfig)
    (tensors : list (string * ManifestEntry)) (expert : ExpertTensor)
    : result (list (string * ManifestEntry)) :=
  up <- manifest_entry config (up_proj expert) ;;
  let tensors := dict_set tensors (name (up_proj expert)) up in
  down <- manifest_entry config (down_proj expert) ;;
  let tensors := dict_set tensors (name (down_proj expert)) down in
  match gate_proj expert with
  | Some g =>
      gate <- manifest_entry config g ;;
      ret (dict_set tensors (name g) gate)
  | None => ret tensors
  end.

(** Generate safetensors manifest. *)
Definition export_safetensors_manifest (config : AtomicExpertConfig)
    (experts : list ExpertTensor) : result Manifest :=
  tensors <- foldM (export_expert config) experts [] ;;
  ret {| metadata_format := "kuhul-atomic";
         metadata_version := "1.0";
         metadata_total_experts := total_experts config;
         metadata_active_experts := active_experts config;
         tensors := tensors |}.

(** The tensors of an expert, in the order they are exported. *)
Definition tensors_of (expert : ExpertTensor) : list TensorSpec :=
  up_proj expert :: down_proj expert ::
  match gate_proj expert with
  | Some g => [g]
  | None => []
  end.

(** Every entry comes from a tensor of one of [seen]. *)
Definition entries_from (config : AtomicExpertConfig) (seen : list ExpertTensor)
    (d : list (string * ManifestEntry)) : Prop :=
  forall key entry,
    dict_get d key = Some entry ->
    exists expert t,
      In expert seen /\ In t (tensors_of expert) /\ name t = key
      /\ manifest_entry config t = ret entry.

(** Every tensor of [seen] has an entry under its name. *)
Definition entries_for (seen : list ExpertTensor)
    (d : list (string * ManifestEntry)) : Prop :=
  forall expert t,
    In expert seen -> In t (tensors_of expert) ->
    exists entry, dict_get d (name t) = Some entry.

(** The names of the tensors that [build_expert] makes for one id. *)
Definition tensor_names (expert_id : string) : list string :=
  [expert_id ++ ".up_proj"; expert_id ++ ".down_proj"; expert_id ++ ".gate_proj"]%string.

(** * Properties *)

(** ** The built-ins on known values *)

Section KnownValues.

Local Open Scope string_scope.

Example float_of_decimal_text :
  PyStr.to_float "0.1" = ret (S754_finite false 7205759403792794 (-56))
  /\ PyStr.to_float " 1_0.5 " = ret (S754_finite false 5910974510923776 (-49))
  /\ PyStr.to_float "1e400" = ret (S754_infinity false)
  /\ PyStr.to_float "16G" = raise ValueError
  /\ PyStr.to_float "." = raise ValueError.
Proof. repeat split; vm_compute; reflexivity. Qed.

Example round_ties_to_even :
  PyFloat.round (PyFloat.lit 5 (-1)) = ret 2
  /\ PyFloat.round (PyFloat.lit 15 (-1)) = ret 8
  /\ PyFloat.round (PyFloat.lit (-1) (-1)) = ret 0
  /\ PyFloat.round (PyFloat.lit (-7) (-1)) = ret (-4)
  /\ PyFloat.truncate (PyFloat.lit (-7) (-1)) = ret (-3).
Proof. repeat split; vm_compute; reflexivity. Qed.

Example int_to_float_rounds :
  PyFloat.of_int (2 ^ 53 + 1) = ret (PyFloat.lit (2 ^ 53) 0)
  /\ PyFloat.of_int (2 ^ 53 + 3) = ret (PyFloat.lit (2 ^ 53 + 4) 0)
  /\ PyFloat.of_int (10 ^ 400) = raise OverflowError.
Proof. repeat split; vm_compute; reflexivity. Qed.

Example int_true_div_values :
  PyFloat.int_true_div 1 3 = ret (S754_finite false 6004799503160661 (-54))
  /\ PyFloat.int_true_div 0 (-5) = ret (S754_zero true)
  /\ PyFloat.int_true_div 5 0 = raise ZeroDivisionError
  /\ PyFloat.int_true_div (10 ^ 400) 1 = raise OverflowError.
Proof. repeat split; vm_compute; reflexivity. Qed.

Example struct_pack_values :
  Struct.pack_e 1 = ret [0; 60]
  /\ Struct.pack_e 65504 = ret [255; 123]
  /\ Struct.pack_e 65519 = ret [255; 123]
  /\ Struct.pack_e 65520 = raise StructError
  /\ Struct.pack_f 1 = ret [0; 0; 128; 63]
  /\ Struct.pack_f 16777217 = ret [0; 0; 128; 75]
  /\ Struct.pack_f 4294967295 = ret [0; 0; 128; 79].
Proof. repeat split; vm_compute; reflexivity. Qed.

Example range_values :
  range 0 5 4 = [0; 4]%nat
  /\ range 0 4 4 = [0]%nat
  /\ range 0 0 2 = []
  /\ range 0 4 1 = [0; 1; 2; 3]%nat.
Proof. repeat split; reflexivity. Qed.

Example pack_values_sub_byte :
  _pack_values [1; 2; 3; 0; 1] INT2 = ret [57; 1]
  /\ _pack_values [1; 2; 3; 0; 1] INT4 = ret [33; 3; 1]
  /\ _pack_values [1; 2; 256] INT8 = raise ValueError.
Proof. repeat split; reflexivity. Qed.

Example quantize_tensor_unit_interval :
  exists scale,
    quantize_tensor [PyFloat.zero; PyFloat.one] INT8 = ret ([0; 255], scale, 0)
    /\ scale = S754_finite false 4521260802379792 (-60).
Proof. eexists. split; vm_compute; reflexivity. Qed.

End KnownValues.

(** ** The float model *)

Lemma iter_pos_iter {A : Type} (f : A -> A) (p : positive) (x : A) :
  iter_pos f p x = Pos.iter f x p.
Proof.
  revert x; induction p as [p IH | p IH |]; intro x; simpl.
  - rewrite !IH. now rewrite !Pos.iter_swap.
  - now rewrite !IH.
  - reflexivity.
Qed.

Lemma digits2_pos_shift (m k : positive) :
  digits2_pos (Pos.iter xO m k) = (digits2_pos m + k)%positive.
Proof.
  induction k as [| k IH] using Pos.peano_ind.
  - simpl. now rewrite Pos.add_1_r.
  - rewrite Pos.iter_succ. simpl. rewrite IH. lia.
Qed.

Lemma pos_shift_value (m k : positive) :
  Zpos (Pos.iter xO m k) = Zpos m * 2 ^ Zpos k.
Proof.
  induction k as [| k IH] using Pos.peano_ind.
  - simpl. lia.
  - rewrite Pos.iter_succ, Pos2Z.inj_xO, IH, Pos2Z.inj_succ, Z.pow_succ_r by lia.
    ring.
Qed.

Lemma shr_exact (m k : positive) :
  iter_pos shr_1 k
    {| shr_m := Zpos (Pos.iter xO m k); shr_r := false; shr_s := false |}
  = {| shr_m := Zpos m; shr_r := false; shr_s := false |}.
Proof.
  rewrite iter_pos_iter.
  induction k as [| k IH] using Pos.peano_ind.
  - reflexivity.
  - rewrite (Pos.iter_succ k _ shr_1), <- Pos.iter_swap.
    rewrite (Pos.iter_succ k _ xO). simpl. exact IH.
Qed.

Lemma fexp_53 (e : Z) : fexp 53 1024 e = Z.max (e - 53) (-1074).
Proof. reflexivity. Qed.

Lemma shr_fexp_canonical (m : positive) (e : Z) :
  digits2_pos m = 53%positive ->
  -1074 <= e ->
  shr_fexp 53 1024 (Zpos m) e loc_Exact
  = ({| shr_m := Zpos m; shr_r := false; shr_s := false |}, e).
Proof.
  intros Hd He. unfold shr_fexp. rewrite fexp_53.
  cbn [Zdigits2 shr_record_of_loc]. rewrite Hd.
  replace (Z.max (53 + e - 53) (-1074) - e) with 0 by lia.
  reflexivity.
Qed.

Lemma round_aux_canonical (s : bool) (m : positive) (e : Z) :
  digits2_pos m = 53%positive ->
  -1074 <= e <= 971 ->
  binary_round_aux 53 1024 s (Zpos m) e loc_Exact
  = S754_finite s m e.
Proof.
  intros Hd He.
  unfold binary_round_aux.
  rewrite (shr_fexp_canonical m e Hd) by lia.
  cbn [shr_m loc_of_shr_record round_nearest_even].
  rewrite (shr_fexp_canonical m e Hd) by lia.
  cbn [shr_m].
  replace (e <=? 1024 - 53) with true by (symmetry; apply Z.leb_le; lia).
  reflexivity.
Qed.

Lemma round_aux_shifted (s : bool) (m k : positive) (e : Z) :
  digits2_pos m = 53%positive ->
  -1074 <= e + Zpos k <= 971 ->
  binary_round_aux 53 1024 s
    (Zpos (Pos.iter xO m k)) e loc_Exact
  = S754_finite s m (e + Zpos k).
Proof.
  intros Hd He.
  unfold binary_round_aux.
  assert (H1 : shr_fexp 53 1024 (Zpos (Pos.iter xO m k)) e loc_Exact
               = ({| shr_m := Zpos m; shr_r := false; shr_s := false |},
                  e + Zpos k)).
  { unfold shr_fexp. rewrite fexp_53.
    cbn [Zdigits2 shr_record_of_loc]. rewrite digits2_pos_shift, Hd.
    replace (Z.max (Zpos (53 + k) + e - 53) (-1074) - e) with (Zpos k) by lia.
    unfold shr. now rewrite shr_exact. }
  rewrite H1. cbn [shr_m loc_of_shr_record round_nearest_even].
  rewrite (shr_fexp_canonical m _ Hd) by lia.
  cbn [shr_m].
  replace (e + Zpos k <=? 1024 - 53) with true by (symmetry; apply Z.leb_le; lia).
  reflexivity.
Qed.

Lemma digits2_pos_bound (p : positive) :
  2 ^ (Zpos (digits2_pos p) - 1) <= Zpos p < 2 ^ Zpos (digits2_pos p).
Proof.
  induction p as [p IH | p IH |]; cbn [digits2_pos].
  - rewrite Pos2Z.inj_succ.
    replace (Z.succ (Zpos (digits2_pos p)) - 1) with (Z.succ (Zpos (digits2_pos p) - 1)) by lia.
    rewrite !Z.pow_succ_r by lia. lia.
  - rewrite Pos2Z.inj_succ.
    replace (Z.succ (Zpos (digits2_pos p)) - 1) with (Z.succ (Zpos (digits2_pos p) - 1)) by lia.
    rewrite !Z.pow_succ_r by lia. lia.
  - simpl. lia.
Qed.

Lemma digits2_pos_le_53 (p : positive) :
  Zpos p < 2 ^ 53 -> Zpos (digits2_pos p) <= 53.
Proof.
  intro H. pose proof (digits2_pos_bound p) as [Hl _].
  destruct (Z_le_gt_dec (Zpos (digits2_pos p)) 53) as [|Hgt]; [assumption|].
  exfalso.
  assert (2 ^ 53 <= 2 ^ (Zpos (digits2_pos p) - 1)) by (apply Z.pow_le_mono_r; lia).
  lia.
Qed.

(** An [int] below [2^53] converts to a double without rounding. *)
Lemma of_int_exact (n : Z) :
  0 < n < 2 ^ 53 ->
  exists m k,
    PyFloat.of_int n = ret (S754_finite false m (- k))
    /\ digits2_pos m = 53%positive
    /\ 0 <= k <= 52
    /\ Zpos m = n * 2 ^ k.
Proof.
  intros [Hpos Hlt]. destruct n as [| p |]; try lia.
  pose proof (digits2_pos_le_53 p Hlt) as Hd.
  unfold PyFloat.of_int, binary_normalize, binary_round, shl_align.
  unfold PyFloat.prec, PyFloat.emax. rewrite fexp_53.
  remember (Z.max (Zpos (digits2_pos p) + 0 - 53) (-1074) - 0) as z eqn:Hz.
  assert (Hz' : z = Zpos (digits2_pos p) - 53) by lia. clear Hz.
  destruct z as [| j | j]; try lia.
  - exists p, 0. 
    rewrite (round_aux_canonical false p 0) by lia.
    repeat split; try lia.
  - exists (Pos.iter xO p j), (Zpos j).
    assert (Hdj : digits2_pos (Pos.iter xO p j) = 53%positive)
      by (rewrite digits2_pos_shift; lia).
    replace (Z.max (Zpos (digits2_pos p) + 0 - 53) (-1074)) with (- Zpos j) by lia.
    rewrite (round_aux_canonical false _ (- Zpos j) Hdj) by lia.
    repeat split; try lia.
    apply pos_shift_value.
Qed.

Lemma mul_pow2_52 (m : positive) (e e' : Z) :
  digits2_pos m = 53%positive ->
  -1074 <= e + e' + 52 <= 971 ->
  PyFloat.mul (S754_finite false m e) (S754_finite false 4503599627370496 e')
  = S754_finite false m (e + e' + 52).
Proof.
  intros Hd He. unfold PyFloat.mul, SFmul, PyFloat.prec, PyFloat.emax. rewrite Pos.mul_comm.
  change (4503599627370496 * m)%positive with (Pos.iter xO m 52).
  cbn [xorb].
  now rewrite (round_aux_shifted false m 52 (e + e') Hd) by lia.
Qed.

Lemma truncate_neg_exp (m : positive) (e : Z) :
  e < 0 ->
  PyFloat.truncate (S754_finite false m e) = ret (Zpos m / 2 ^ (- e)).
Proof.
  intro He. destruct e as [| p | p]; try lia.
  cbn [PyFloat.truncate]. now rewrite Z.shiftr_div_pow2 by lia.
Qed.

(** [int(n * 2^-j)] for [j] = 1, 2 and an [int] n below [2^53]. *)
Lemma scaled_size_exact (n : Z) (e' j : Z) :
  0 < n < 2 ^ 53 ->
  1 <= j <= 2 -> e' = - j - 52 ->
  (nf <- PyFloat.of_int n ;;
   PyFloat.truncate (PyFloat.mul nf (S754_finite false 4503599627370496 e')))
  = ret (n / 2 ^ j).
Proof.
  intros Hn Hj He'.
  destruct (of_int_exact n Hn) as (m & k & Hof & Hd & Hk & Hm).
  rewrite Hof. cbn [bind ret].
  rewrite (mul_pow2_52 m (- k) e' Hd) by lia.
  rewrite truncate_neg_exp by lia.
  f_equal. rewrite Hm.
  replace (- (- k + e' + 52)) with (j + k) by lia.
  rewrite Z.pow_add_r by lia.
  apply Z.div_mul_cancel_r; apply Z.pow_nonzero; lia.
Qed.

(** ** Tensor sizes *)

Lemma fold_left_mul (l : list Z) (a : Z) :
  fold_left (fun result dim => result * dim) l a = a * product l.
Proof.
  revert a; induction l as [| d l IH]; intro a; cbn [fold_left product fold_right].
  - lia.
  - rewrite IH. unfold product. ring.
Qed.

Lemma numel_product (t : TensorSpec) : numel t = product (shape t).
Proof. unfold numel. rewrite fold_left_mul. lia. Qed.

Lemma product_pos (l : list Z) : Forall (fun d => 0 < d) l -> 0 < product l.
Proof.
  induction 1 as [| d l Hd _ IH]; cbn [product fold_right]; [lia|].
  fold (product l). lia.
Qed.

Lemma floor_scaled (n : Z) (f : PyFloat.float) (j : Z) :
  (PyFloat.to_Q f == 1 # Z.to_pos (2 ^ j))%Q -> 0 < 2 ^ j ->
  Qfloor (inject_Z n * PyFloat.to_Q f)%Q = n / 2 ^ j.
Proof.
  intros Hq Hj. rewrite Hq. unfold Qfloor, Qmult, inject_Z. cbn [Qnum Qden].
  rewrite Z.mul_1_r, Pos.mul_1_l, Z2Pos.id by assumption. reflexivity.
Qed.

(** C6, amended. For every tensor with a shape of positive integers
    whose element count is below [2^53] when its precision is 2-bit or
    4-bit, [numel] is the product of the shape and [size_bytes] is
    [floor(elementCount * bytesPerElement)]. *)
Theorem size_bytes_floor (t : TensorSpec) :
  Forall (fun d => 0 < d) (shape t) ->
  (sub_byte (precision t) = true -> product (shape t) < 2 ^ 53) ->
  numel t = product (shape t) /\ size_bytes t = ret (floor_size t).
Proof.
  intros Hpos Hlt. split; [apply numel_product|].
  unfold size_bytes, floor_size. rewrite numel_product.
  pose proof (product_pos _ Hpos) as Hp.
  destruct (precision t); cbn [bytes_per_element int_mul num_to_Q sub_byte] in *.
  - specialize (Hlt eq_refl).
    rewrite (floor_scaled _ PyFloat.quarter 2) by (reflexivity || lia).
    pose proof (scaled_size_exact (product (shape t)) (-54) 2) as H.
    unfold bind, ret in *. 
    destruct (PyFloat.of_int (product (shape t))); cbn [py_int]; apply H; lia.
  - specialize (Hlt eq_refl).
    rewrite (floor_scaled _ PyFloat.half 1) by (reflexivity || lia).
    pose proof (scaled_size_exact (product (shape t)) (-53) 1) as H.
    unfold bind, ret in *.
    destruct (PyFloat.of_int (product (shape t))); cbn [py_int]; apply H; lia.
  - cbn [bind ret py_int]. unfold Qfloor, Qmult, inject_Z; cbn [Qnum Qden].
    now rewrite Z.div_1_r.
  - cbn [bind ret py_int]. unfold Qfloor, Qmult, inject_Z; cbn [Qnum Qden].
    now rewrite Z.div_1_r.
  - cbn [bind ret py_int]. unfold Qfloor, Qmult, inject_Z; cbn [Qnum Qden].
    now rewrite Z.div_1_r.
  - cbn [bind ret py_int]. unfold Qfloor, Qmult, inject_Z; cbn [Qnum Qden].
    now rewrite Z.div_1_r.
Qed.

(** C6 as stated fails: a 2-bit tensor of [2^53 + 3] elements has a
    [size_bytes] one above [floor(elementCount * 0.25)], because the
    element count is rounded to a double before the multiplication. *)
Lemma size_bytes_floor_counterexample :
  ~ (forall t : TensorSpec,
       Forall (fun d => 0 < d) (shape t) ->
       numel t = product (shape t) /\ size_bytes t = ret (floor_size t)).
Proof.
  intro H.
  destruct (H huge_int2_tensor) as [_ Hs].
  - repeat constructor.
  - vm_compute in Hs. discriminate Hs.
Qed.

Example huge_int2_tensor_size :
  size_bytes huge_int2_tensor = ret 2251799813685249
  /\ floor_size huge_int2_tensor = 2251799813685248.
Proof. split; vm_compute; reflexivity. Qed.

Lemma size_bytes_floor_witness :
  Forall (fun d => 0 < d) (shape example_int4_tensor)
  /\ numel example_int4_tensor = 1048576
  /\ size_bytes example_int4_tensor = ret 524288.
Proof.
  assert (Hp : Forall (fun d => 0 < d) (shape example_int4_tensor))
    by (repeat constructor).
  assert (Hb : sub_byte (precision example_int4_tensor) = true ->
               product (shape example_int4_tensor) < 2 ^ 53)
    by (intros _; reflexivity).
  split; [exact Hp|].
  exact (size_bytes_floor example_int4_tensor Hp Hb).
Defined.

(** ** Packing *)

Lemma ceil_step (a step : nat) :
  (0 < a)%nat -> (0 < step)%nat ->
  ((a + step - 1) / step = S ((a - step + step - 1) / step))%nat.
Proof.
  intros Ha Hs.
  replace (a + step - 1)%nat with ((a - 1) + 1 * step)%nat by lia.
  rewrite Nat.div_add by lia.
  destruct (Nat.le_gt_cases step a) as [Hle | Hgt].
  - replace (a - step + step - 1)%nat with (a - 1)%nat by lia. lia.
  - replace (a - step + step - 1)%nat with (step - 1)%nat by lia.
    rewrite !Nat.div_small by lia. lia.
Qed.

Lemma range_loop_seq (step fuel i stop : nat) :
  (0 < step)%nat -> (stop - i <= fuel)%nat ->
  range_loop fuel i stop step
  = map (fun k => (i + k * step)%nat) (seq 0 ((stop - i + step - 1) / step)).
Proof.
  intro Hs. revert i. induction fuel as [| fuel IH]; intros i Hf; cbn [range_loop].
  - replace (stop - i)%nat with 0%nat by lia.
    cbn [Nat.add]. now rewrite Nat.div_small by lia.
  - destruct (Nat.ltb_spec i stop) as [Hlt | Hge].
    + rewrite IH by lia.
      rewrite (ceil_step (stop - i) step) by lia.
      replace (stop - i - step)%nat with (stop - (i + step))%nat by lia.
      cbn [seq map]. f_equal; [lia|].
      rewrite <- seq_shift, map_map.
      apply map_ext. intro k. lia.
    + replace (stop - i)%nat with 0%nat by lia.
      cbn [Nat.add]. now rewrite Nat.div_small by lia.
Qed.

Lemma range_seq (stop step : nat) :
  (0 < step)%nat ->
  range 0 stop step
  = map (fun k => (k * step)%nat) (seq 0 ((stop + step - 1) / step)).
Proof.
  intro Hs. unfold range. rewrite range_loop_seq by lia.
  now rewrite Nat.sub_0_r.
Qed.

Lemma nth_map_seq {A : Type} (h : nat -> A) (c k : nat) (d : A) :
  (k < c)%nat -> nth k (map h (seq 0 c)) d = h k.
Proof.
  intro Hk.
  rewrite (nth_indep _ d (h 0%nat)) by (now rewrite length_map, length_seq).
  rewrite map_nth, seq_nth by assumption. reflexivity.
Qed.

Lemma ceil_Qceiling (n : nat) (d : positive) :
  Z.of_nat ((n + Pos.to_nat d - 1) / Pos.to_nat d)
  = Qceiling (Z.of_nat n # d).
Proof.
  unfold Qceiling, Qfloor, Qopp. cbn [Qnum Qden].
  rewrite Nat2Z.inj_div, Nat2Z.inj_sub, Nat2Z.inj_add by lia.
  rewrite positive_nat_Z.
  assert (Hd : 0 < Zpos d) by lia.
  generalize dependent (Zpos d). intros z Hz.
  generalize (Z.of_nat n) (Nat2Z.is_nonneg n). intros a Ha.
  cbn. 
  pose proof (Z.div_mod (a + z - 1) z ltac:(lia)) as H1.
  pose proof (Z.mod_pos_bound (a + z - 1) z Hz) as H2.
  pose proof (Z.div_mod (- a) z ltac:(lia)) as H3.
  pose proof (Z.mod_pos_bound (- a) z Hz) as H4.
  nia.
Qed.

(** A padded slot contributes nothing. *)
Lemma pad_slot (values : list Z) (i : nat) (byte mask sh : Z) :
  (if (i <? List.length values)%nat
   then Z.lor byte (Z.shiftl (Z.land (nth i values 0) mask) sh)
   else byte)
  = Z.lor byte (Z.shiftl (Z.land (slot values i) mask) sh).
Proof.
  unfold slot. destruct (Nat.ltb_spec i (List.length values)) as [H | H].
  - reflexivity.
  - rewrite nth_overflow by assumption.
    now rewrite Z.land_0_l, Z.shiftl_0_l, Z.lor_0_r.
Qed.

Lemma pack_int2_eq (values : list Z) :
  _pack_values values INT2
  = ret (map (byte_int2 values) (seq 0 ((List.length values + 4 - 1) / 4))).
Proof.
  cbn [_pack_values]. cbv zeta. rewrite (range_seq (List.length values) 4) by lia. rewrite map_map.
  f_equal. apply map_ext. intro k.
  change (range 0 4 1) with [0; 1; 2; 3]%nat. cbn [fold_left].
  rewrite !pad_slot. unfold byte_int2.
  rewrite Z.lor_0_l.
  replace (k * 4 + 0)%nat with (4 * k)%nat by lia.
  replace (k * 4 + 1)%nat with (4 * k + 1)%nat by lia.
  replace (k * 4 + 2)%nat with (4 * k + 2)%nat by lia.
  replace (k * 4 + 3)%nat with (4 * k + 3)%nat by lia.
  reflexivity.
Qed.

Lemma pack_int4_eq (values : list Z) :
  _pack_values values INT4
  = ret (map (byte_int4 values) (seq 0 ((List.length values + 2 - 1) / 2))).
Proof.
  cbn [_pack_values]. cbv zeta. rewrite (range_seq (List.length values) 2) by lia. rewrite map_map.
  f_equal. apply map_ext. intro k. unfold byte_int4.
  replace (k * 2)%nat with (2 * k)%nat by lia.
  f_equal.
  unfold slot. destruct (Nat.ltb_spec (2 * k + 1) (List.length values)) as [H | H].
  - reflexivity.
  - now rewrite nth_overflow by assumption.
Qed.

Lemma lor_bound (n a b : Z) :
  0 <= a < 2 ^ n -> 0 <= b < 2 ^ n -> 0 <= Z.lor a b < 2 ^ n.
Proof.
  intros Ha Hb.
  assert (H0 : 0 <= Z.lor a b) by (apply Z.lor_nonneg; lia).
  split; [assumption|].
  destruct (Z.eq_dec (Z.lor a b) 0) as [Hz | Hnz]; [lia|].
  assert (Hn : 0 < n).
  { destruct (Z_lt_le_dec 0 n) as [|Hn]; [assumption|].
    assert (2 ^ n <= 1).
    { destruct (Z.eq_dec n 0) as [-> | ]; [simpl; lia|].
      rewrite Z.pow_neg_r by lia. lia. }
    assert (a = 0) by lia. assert (b = 0) by lia. subst. now cbn in Hnz. }
  apply Z.log2_lt_pow2; [lia|].
  rewrite Z.log2_lor by lia.
  apply Z.max_lub_lt.
  - destruct (Z.eq_dec a 0) as [-> | ]; [now cbn|]. apply Z.log2_lt_pow2; lia.
  - destruct (Z.eq_dec b 0) as [-> | ]; [now cbn|]. apply Z.log2_lt_pow2; lia.
Qed.

Lemma land_shift_bound (v k sh : Z) :
  0 <= k -> 0 <= sh ->
  0 <= Z.shiftl (Z.land v (Z.ones k)) sh < 2 ^ (k + sh).
Proof.
  intros Hk Hs. rewrite Z.land_ones by assumption.
  rewrite Z.shiftl_mul_pow2 by assumption.
  pose proof (Z.mod_pos_bound v (2 ^ k) ltac:(apply Z.pow_pos_nonneg; lia)) as Hm.
  assert (0 < 2 ^ sh) by (apply Z.pow_pos_nonneg; lia).
  rewrite Z.pow_add_r by assumption. nia.
Qed.

Lemma byte_int2_is_byte (values : list Z) (k : nat) : is_byte (byte_int2 values k).
Proof.
  unfold is_byte, byte_int2. change 256 with (2 ^ 8). change 3 with (Z.ones 2).
  repeat apply lor_bound.
  - pose proof (land_shift_bound (slot values (4 * k)) 2 0 ltac:(lia) ltac:(lia)) as H.
    rewrite Z.shiftl_0_r in H. cbn in H |- *. lia.
  - pose proof (land_shift_bound (slot values (4 * k + 1)) 2 2 ltac:(lia) ltac:(lia)) as H.
    cbn in H |- *. lia.
  - pose proof (land_shift_bound (slot values (4 * k + 2)) 2 4 ltac:(lia) ltac:(lia)) as H.
    cbn in H |- *. lia.
  - pose proof (land_shift_bound (slot values (4 * k + 3)) 2 6 ltac:(lia) ltac:(lia)) as H.
    cbn in H |- *. lia.
Qed.

Lemma byte_int4_is_byte (values : list Z) (k : nat) : is_byte (byte_int4 values k).
Proof.
  unfold is_byte, byte_int4. change 256 with (2 ^ 8). change 15 with (Z.ones 4).
  repeat apply lor_bound.
  - pose proof (land_shift_bound (slot values (2 * k)) 4 0 ltac:(lia) ltac:(lia)) as H.
    rewrite Z.shiftl_0_r in H. cbn in H |- *. lia.
  - pose proof (land_shift_bound (slot values (2 * k + 1)) 4 4 ltac:(lia) ltac:(lia)) as H.
    cbn in H |- *. lia.
Qed.

Lemma bytes_of_ints_id (values : list Z) :
  Forall is_byte values -> bytes_of_ints values = ret values.
Proof.
  unfold bytes_of_ints.
  induction 1 as [| v l [Hv1 Hv2] _ IH]; cbn [mapM]; [reflexivity|].
  replace (0 <=? v) with true by (symmetry; apply Z.leb_le; lia).
  replace (v <? 256) with true by (symmetry; apply Z.ltb_lt; lia).
  cbn [andb bind ret]. rewrite IH. reflexivity.
Qed.

Lemma packed_map_facts (body : nat -> Z) (n : nat) (d : positive) :
  (forall k, is_byte (body k)) ->
  let packed := map body (seq 0 ((n + Pos.to_nat d - 1) / Pos.to_nat d)) in
  Z.of_nat (List.length packed) = Qceiling (Z.of_nat n # d)
  /\ Forall is_byte packed
  /\ (forall k, (k < List.length packed)%nat -> nth k packed 0 = body k).
Proof.
  intros Hb packed. subst packed. rewrite length_map, length_seq.
  split; [apply ceil_Qceiling|]. split.
  - apply Forall_forall. intros b Hin. apply in_map_iff in Hin.
    destruct Hin as (k & <- & _). apply Hb.
  - intros k Hk. now apply nth_map_seq.
Qed.

(** C7. Packing size: for every list of values the 2-bit packing returns
    [ceil(len / 4)] bytes and the 4-bit packing [ceil(len / 2)] bytes,
    each byte made of its slots with the slots past the end of the list
    zero; a list of values in [0, 255] is packed at 8 bits as itself,
    one byte per value. *)
Theorem pack_values_size (values : list Z) :
  (exists packed,
      _pack_values values INT2 = ret packed
      /\ Z.of_nat (List.length packed)
         = Qceiling (Z.of_nat (List.length values) # 4)
      /\ Forall is_byte packed
      /\ (forall k, (k < List.length packed)%nat ->
                    nth k packed 0 = byte_int2 values k))
  /\ (exists packed,
      _pack_values values INT4 = ret packed
      /\ Z.of_nat (List.length packed)
         = Qceiling (Z.of_nat (List.length values) # 2)
      /\ Forall is_byte packed
      /\ (forall k, (k < List.length packed)%nat ->
                    nth k packed 0 = byte_int4 values k))
  /\ (Forall is_byte values ->
      exists packed,
        _pack_values values INT8 = ret packed
        /\ List.length packed = List.length values
        /\ packed = values).
Proof.
  split; [| split].
  - eexists. split; [apply pack_int2_eq|].
    apply (packed_map_facts (byte_int2 values) (List.length values) 4).
    apply byte_int2_is_byte.
  - eexists. split; [apply pack_int4_eq|].
    apply (packed_map_facts (byte_int4 values) (List.length values) 2).
    apply byte_int4_is_byte.
  - intro Hb. exists values. cbn [_pack_values].
    now rewrite bytes_of_ints_id.
Qed.

Lemma pack_values_size_witness :
  Forall is_byte [1; 2; 3; 0; 255]
  /\ exists packed,
       _pack_values [1; 2; 3; 0; 255] INT8 = ret packed
       /\ List.length packed = 5%nat
       /\ packed = [1; 2; 3; 0; 255].
Proof.
  assert (H : Forall is_byte [1; 2; 3; 0; 255])
    by (repeat constructor; unfold is_byte; lia).
  split; [exact H|].
  exact (proj2 (proj2 (pack_values_size [1; 2; 3; 0; 255])) H).
Defined.

(** ** Strings and patterns *)

Section Patterns.

Local Open Scope string_scope.


Lemma string_length_app (t u : string) :
  String.length (t ++ u) = (String.length t + String.length u)%nat.
Proof. induction t as [| c t IH]; cbn; [reflexivity | now rewrite IH]. Qed.

Lemma substring_full (s : string) : substring 0 (String.length s) s = s.
Proof. induction s as [| c s IH]; cbn; [reflexivity | now rewrite IH]. Qed.

Lemma substring_app_l (t u : string) :
  substring 0 (String.length t) (t ++ u) = t.
Proof.
  induction t as [| c t IH]; cbn.
  - now destruct u.
  - now rewrite IH.
Qed.

Lemma substring_app_r (t u : string) :
  substring (String.length t) (String.length u) (t ++ u) = u.
Proof. induction t as [| c t IH]; cbn; [apply substring_full | exact IH]. Qed.

Lemma substring_split (s : string) (a : nat) :
  (a <= String.length s)%nat ->
  s = substring 0 a s ++ substring a (String.length s - a) s.
Proof.
  revert a; induction s as [| c s IH]; intros a Ha.
  - cbn in Ha. assert (a = 0%nat) by lia. subst. reflexivity.
  - destruct a as [| a].
    + cbn [substring append]. rewrite Nat.sub_0_r.
      change (String.length (String c s)) with (S (String.length s)).
      cbn [substring]. now rewrite substring_full.
    + cbn in Ha. cbn [substring append String.length Nat.sub].
      f_equal. apply IH. lia.
Qed.

Lemma endswith_iff (s suf : string) :
  PyStr.endswith s suf = true <-> exists t, s = t ++ suf.
Proof.
  unfold PyStr.endswith. split.
  - intro H. apply andb_true_iff in H. destruct H as [Hk He].
    apply Nat.leb_le in Hk. apply String.eqb_eq in He.
    exists (substring 0 (String.length s - String.length suf) s).
    rewrite <- He at 2.
    rewrite (substring_split s (String.length s - String.length suf)) at 1 by lia.
    do 2 f_equal. lia.
  - intros [t ->]. rewrite string_length_app. apply andb_true_iff. split.
    + apply Nat.leb_le. lia.
    + apply String.eqb_eq.
      replace (String.length t + String.length suf - String.length suf)%nat
        with (String.length t) by lia.
      apply substring_app_r.
Qed.

Lemma drop_last_app (t u : string) :
  PyStr.drop_last (String.length u) (t ++ u) = t.
Proof.
  unfold PyStr.drop_last. rewrite string_length_app.
  replace (String.length t + String.length u - String.length u)%nat
    with (String.length t) by lia.
  apply substring_app_l.
Qed.

Lemma startswith_iff (e p : string) :
  PyStr.startswith e p = true <-> exists t, e = p ++ t.
Proof.
  revert e; induction p as [| a p IH]; intro e; cbn [PyStr.startswith].
  - split; [intros _; now exists e | reflexivity].
  - destruct e as [| b e].
    + split; [discriminate | intros [t Ht]; discriminate].
    + rewrite andb_true_iff, Ascii.eqb_eq, IH. split.
      * intros [-> [t ->]]. now exists t.
      * intros [t Ht]. cbn in Ht. injection Ht as -> ->. split; [reflexivity | now exists t].
Qed.

Lemma in_chars_app (c : ascii) (t u : string) :
  In c (list_ascii_of_string u) -> In c (list_ascii_of_string (t ++ u)).
Proof. induction t as [| d t IH]; cbn; [trivial | intro H; right; auto]. Qed.

Lemma str_in_iff (x : string) (l : list string) :
  str_in x l = true <-> In x l.
Proof.
  unfold str_in. rewrite existsb_exists. split.
  - intros [y [Hin He]]. apply String.eqb_eq in He. now subst.
  - intro Hin. exists x. split; [assumption | apply String.eqb_refl].
Qed.

(** C8. Wildcard expansion: a pattern [prefix*] expands to the registry
    filtered, in its order, by "starts with [prefix]"; a pattern without
    any [*] expands to itself when it is in the registry and to nothing
    otherwise; the two examples of the specification. *)
Theorem expand_expert_pattern_spec (pattern : string) (all_experts : list string) :
  (forall prefix, pattern = prefix ++ "*" ->
     exists starts_with_prefix : string -> bool,
       (forall e, starts_with_prefix e = true <-> exists t, e = prefix ++ t)
       /\ expand_expert_pattern pattern all_experts
          = filter starts_with_prefix all_experts)
  /\ (~ In "*"%char (list_ascii_of_string pattern) ->
      expand_expert_pattern pattern all_experts
      = if in_dec string_dec pattern all_experts then [pattern] else [])
  /\ expand_expert_pattern "math-*" ["math-algebra"; "math-calculus"; "lang-python"]
     = ["math-algebra"; "math-calculus"]
  /\ expand_expert_pattern "lang-go" ["math-algebra"; "math-calculus"; "lang-python"]
     = [].
Proof.
  split; [| split; [| split; reflexivity]].
  - intros prefix ->. exists (fun e => PyStr.startswith e prefix).
    split; [intro e; apply startswith_iff|].
    unfold expand_expert_pattern.
    replace (PyStr.endswith (prefix ++ "*") "*") with true
      by (symmetry; apply endswith_iff; now exists prefix).
    change (PyStr.drop_last 1 (prefix ++ "*"))
      with (PyStr.drop_last (String.length "*") (prefix ++ "*")).
    now rewrite drop_last_app.
  - intro Hstar. unfold expand_expert_pattern.
    destruct (PyStr.endswith pattern "*") eqn:He.
    + apply endswith_iff in He. destruct He as [t ->].
      exfalso. apply Hstar. apply in_chars_app. now left.
    + destruct (in_dec string_dec pattern all_experts) as [Hin | Hnin].
      * now replace (str_in pattern all_experts) with true
          by (symmetry; now apply str_in_iff).
      * destruct (str_in pattern all_experts) eqn:Hs; [|reflexivity].
        apply str_in_iff in Hs. contradiction.
Qed.

Lemma expand_expert_pattern_spec_witness :
  ~ In "*"%char (list_ascii_of_string "lang-python")
  /\ expand_expert_pattern "lang-python" ["math-algebra"; "math-calculus"; "lang-python"]
     = ["lang-python"].
Proof.
  assert (H : ~ In "*"%char (list_ascii_of_string "lang-python")).
  { cbn. intros [H | [H | [H | [H | [H | [H | [H | [H | [H | [H | [H | []]]]]]]]]]]];
      discriminate H. }
  split; [exact H|].
  exact (proj1 (proj2 (expand_expert_pattern_spec "lang-python"
           ["math-algebra"; "math-calculus"; "lang-python"])) H).
Defined.

End Patterns.

(** ** The deployment plan *)

Lemma bind_inv {A B : Type} (c : result A) (k : A -> result B) (b : B) :
  bind c k = ret b -> exists a, c = ret a /\ k a = ret b.
Proof.
  destruct c as [e | a]; cbn [bind]; intro H; [discriminate|].
  now exists a.
Qed.

Lemma ret_inj {A : Type} (a b : A) : ret a = ret b -> a = b.
Proof. intro H. now injection H. Qed.

Lemma mapM_Forall2 {A B : Type} (f : A -> result B) (xs : list A) (ys : list B) :
  mapM f xs = ret ys -> Forall2 (fun x y => f x = ret y) xs ys.
Proof.
  revert ys; induction xs as [| x xs IH]; intros ys H; cbn [mapM] in H.
  - apply ret_inj in H. subst. constructor.
  - apply bind_inv in H. destruct H as (y & Hy & H).
    apply bind_inv in H. destruct H as (ys' & Hys & H).
    apply ret_inj in H. subst. constructor; auto.
Qed.

Lemma fold_left_flat_map {A B : Type} (f : A -> list B) (l : list A) (acc : list B) :
  fold_left (fun acc x => acc ++ f x) l acc = acc ++ flat_map f l.
Proof.
  revert acc; induction l as [| x l IH]; intro acc; cbn [fold_left flat_map].
  - now rewrite app_nil_r.
  - now rewrite IH, app_assoc.
Qed.

Lemma foldM_sum {A : Type} (g : A -> result Z) (l : list A) (a u : Z) :
  foldM (fun used x => b <- g x ;; ret (used + b)) l a = ret u ->
  exists sizes, mapM g l = ret sizes /\ u = a + py_sum sizes.
Proof.
  revert a; induction l as [| x l IH]; intros a H; cbn [foldM mapM] in *.
  - apply ret_inj in H. subst. exists []. split; [reflexivity | cbn; lia].
  - apply bind_inv in H. destruct H as (a' & Ha' & H).
    apply bind_inv in Ha'. destruct Ha' as (b & Hb & Ha').
    apply ret_inj in Ha'. subst a'.
    destruct (IH _ H) as (sizes & Hs & ->).
    exists (b :: sizes). rewrite Hb, Hs. split; [reflexivity|].
    unfold py_sum. cbn [fold_right]. lia.
Qed.


Lemma plan_step_inv (ec : AtomicExpertConfig) (st st' : PlanState)
    (alloc : NodeAllocation) :
  plan_step ec st alloc = ret st' ->
  exists n,
    st_nodes st' = st_nodes st ++ [n]
    /\ node_of_alloc alloc n
    /\ total_used st' = total_used st + memory_used alloc
    /\ total_budget st' = total_budget st + memory_budget alloc.
Proof.
  unfold plan_step. intro H.
  apply bind_inv in H. destruct H as (u & Hu & H).
  apply bind_inv in H. destruct H as (details & _ & H).
  apply ret_inj in H. subst st'. cbn [st_nodes total_used total_budget].
  eexists. split; [reflexivity|]. split; [| split; reflexivity].
  unfold node_of_alloc, utilization_ok.
  cbn [memory_budget_bytes memory_used_bytes ni_experts expert_count memory_utilization].
  repeat split.
  - intro Hb. rewrite Hb in Hu. cbn in Hu. now apply ret_inj in Hu.
  - intro Hb.
    replace (memory_budget alloc >? 0) with true in Hu
      by (symmetry; apply Z.gtb_lt; lia).
    apply bind_inv in Hu. destruct Hu as (x & Hx & Hu).
    apply ret_inj in Hu. now exists x.
Qed.

Lemma plan_fold_inv (ec : AtomicExpertConfig) (allocs : list NodeAllocation)
    (st0 st : PlanState) :
  foldM (plan_step ec) allocs st0 = ret st ->
  exists ns,
    st_nodes st = st_nodes st0 ++ ns
    /\ Forall2 node_of_alloc allocs ns
    /\ total_used st = total_used st0 + py_sum (map memory_used_bytes ns)
    /\ total_budget st = total_budget st0 + py_sum (map memory_budget_bytes ns).
Proof.
  revert st0; induction allocs as [| a allocs IH]; intros st0 H; cbn [foldM] in H.
  - apply ret_inj in H. subst. exists []. rewrite app_nil_r.
    repeat split; cbn; try lia. constructor.
  - apply bind_inv in H. destruct H as (st1 & H1 & H).
    destruct (plan_step_inv _ _ _ _ H1) as (n & Hn & Ha & Hu & Hb).
    destruct (IH _ H) as (ns & Hns & Hall & Hu' & Hb').
    exists (n :: ns). rewrite Hns, Hn, <- app_assoc.
    split; [reflexivity|]. split; [now constructor|].
    destruct Ha as (Hab & Hau & _).
    unfold py_sum in *. cbn [map fold_right]. lia.
Qed.

Lemma allocate_node_inv (ec : AtomicExpertConfig) (all : list string)
    (node : NodeConfig) (alloc : NodeAllocation) :
  allocate_node ec all node = ret alloc ->
  experts alloc
  = flat_map (fun pattern => expand_expert_pattern pattern all)
             (node_config_experts node)
  /\ exists sizes,
       mapM (fun expert_id => total_bytes (build_expert ec expert_id))
            (experts alloc) = ret sizes
       /\ memory_used alloc = py_sum sizes.
Proof.
  unfold allocate_node. intro H.
  apply bind_inv in H. destruct H as (budget & _ & H).
  apply bind_inv in H. destruct H as (used & Hused & H).
  apply ret_inj in H. subst alloc. cbn [experts memory_used].
  rewrite fold_left_flat_map in *. cbn [app] in *.
  split; [reflexivity|].
  destruct (foldM_sum _ _ _ _ Hused) as (sizes & Hs & ->).
  exists sizes. split; [assumption | lia].
Qed.

Lemma Forall2_compose {A B C : Type} (R : A -> B -> Prop) (S : B -> C -> Prop)
    (T : A -> C -> Prop) (xs : list A) (ys : list B) (zs : list C) :
  (forall x y z, R x y -> S y z -> T x z) ->
  Forall2 R xs ys -> Forall2 S ys zs -> Forall2 T xs zs.
Proof.
  intros HT HR. revert zs. induction HR as [| x y xs ys Hxy _ IH]; intros zs HS.
  - inversion HS. constructor.
  - inversion HS as [| y' z ys' zs' Hyz Hrest]; subst.
    constructor; eauto.
Qed.

Lemma Forall2_Forall_r {A B : Type} (R : A -> B -> Prop) (P : B -> Prop)
    (xs : list A) (ys : list B) :
  (forall x y, R x y -> P y) -> Forall2 R xs ys -> Forall P ys.
Proof. intros HP H. induction H; constructor; eauto. Qed.

Lemma small_budget_plan_over :
  exists plan n x,
    generate_deployment_plan small_budget_config default_expert_config = ret plan
    /\ In n (nodes (cluster plan))
    /\ memory_budget_bytes n = 1048576
    /\ memory_used_bytes n = 3145728
    /\ memory_utilization n = PyFloatV x
    /\ (PyFloat.to_Q x == 3)%Q.
Proof.
  set (r := generate_deployment_plan small_budget_config default_expert_config).
  vm_compute in r.
  match eval unfold r in r with
  | inr ?p => exists p
  end.
  eexists. eexists. split; [reflexivity|].
  split; [left; reflexivity|].
  repeat split; reflexivity.
Qed.

(** C9. Aggregate invariant: when planning succeeds, the plan's total
    used memory and total budget are the sums over its node records;
    every node record has utilization 0 for a zero budget and used /
    budget for a positive one; every node holds all the experts its
    patterns match and the bytes of all of them, whatever its budget;
    and some plan has a node with utilization above 1. *)
Theorem deployment_plan_aggregate (config : Config)
    (expert_config : AtomicExpertConfig) (plan : DeploymentPlan) :
  generate_deployment_plan config expert_config = ret plan ->
  total_memory_used (cluster plan)
  = py_sum (map memory_used_bytes (nodes (cluster plan)))
  /\ total_memory_budget (cluster plan)
     = py_sum (map memory_budget_bytes (nodes (cluster plan)))
  /\ Forall utilization_ok (nodes (cluster plan))
  /\ Forall2 (full_allocation expert_config (collect_experts config))
             (cluster_nodes config) (nodes (cluster plan))
  /\ exists config' expert_config' plan' n x,
       generate_deployment_plan config' expert_config' = ret plan'
       /\ In n (nodes (cluster plan'))
       /\ memory_utilization n = PyFloatV x
       /\ (1 < PyFloat.to_Q x)%Q.
Proof.
  unfold generate_deployment_plan. intro H.
  apply bind_inv in H. destruct H as (allocs & Hallocs & H).
  apply bind_inv in H. destruct H as (router_dict & _ & H).
  apply bind_inv in H. destruct H as (st & Hst & H).
  apply ret_inj in H. subst plan.
  cbn [cluster nodes total_memory_used total_memory_budget].
  destruct (plan_fold_inv _ _ _ _ Hst) as (ns & Hns & Hall & Hu & Hb).
  cbn [st_nodes total_used total_budget app] in Hns, Hu, Hb.
  rewrite Hns. split; [lia|]. split; [lia|]. split; [| split].
  - apply (Forall2_Forall_r _ _ _ _ (fun a n H => proj2 (proj2 (proj2 (proj2 H)))) Hall).
  - unfold build_allocation in Hallocs. apply mapM_Forall2 in Hallocs.
    refine (Forall2_compose _ _ _ _ _ _ _ Hallocs Hall).
    intros node a n Ha (Hab & Hau & Hae & Hac & _).
    destruct (allocate_node_inv _ _ _ _ Ha) as (Hexp & sizes & Hs & Hsum).
    unfold full_allocation. rewrite Hae, Hac, Hau.
    split; [assumption|]. split; [reflexivity|]. now exists sizes.
  - destruct small_budget_plan_over as (p & n & x & Hp & Hin & _ & _ & Hx & Hq).
    exists small_budget_config, default_expert_config, p, n, x.
    repeat split; try assumption. rewrite Hq. reflexivity.
Qed.

Lemma deployment_plan_aggregate_witness :
  exists plan,
    generate_deployment_plan small_budget_config default_expert_config = ret plan
    /\ total_memory_used (cluster plan)
       = py_sum (map memory_used_bytes (nodes (cluster plan)))
    /\ total_memory_used (cluster plan) = 3145728.
Proof.
  eexists. split; [vm_compute; reflexivity|].
  split; [| reflexivity].
  refine (proj1 (deployment_plan_aggregate
                   small_budget_config default_expert_config _ _)).
  vm_compute. reflexivity.
Defined.

(** ** Quantization *)

(** C10. Empty input to quantization: for every precision kind,
    [quantize_tensor] on the empty list returns the empty byte buffer with
    scale 1.0 and zero point 0, and no exception. *)
Theorem quantize_tensor_empty (p : Precision) :
  quantize_tensor [] p = ret ([], PyFloat.one, 0)
  /\ (PyFloat.to_Q PyFloat.one == 1)%Q.
Proof. split; reflexivity. Qed.

(** C4. The code packs the fp16 and the bf16 kind with the same routine:
    the two buffers are equal for every list of values. The value 1 is
    packed as the IEEE half [0x3C00] under both kinds, where the bfloat16
    layout of the specification gives [0x3F80]. *)
Theorem pack_values_bf16_same_as_fp16 :
  (forall values, _pack_values values BF16 = _pack_values values FP16)
  /\ _pack_values [1] BF16 = ret [0; 60]
  /\ _pack_values [1] FP16 = ret [0; 60]
  /\ spec_pack_bfloat16 [1] = ret [128; 63].
Proof. repeat split; reflexivity. Qed.

Lemma min_from_repeat (x : PyFloat.float) (n : nat) : min_from x (repeat x n) = x.
Proof.
  induction n as [| n IH]; cbn [repeat min_from]; [reflexivity|].
  now destruct (PyFloat.lt x x).
Qed.

Lemma max_from_repeat (x : PyFloat.float) (n : nat) : max_from x (repeat x n) = x.
Proof.
  induction n as [| n IH]; cbn [repeat max_from]; [reflexivity|].
  now destruct (PyFloat.gt x x).
Qed.

Lemma sub_self_finite (s : bool) (m : positive) (e : Z) :
  PyFloat.sub (S754_finite s m e) (S754_finite s m e) = S754_zero false.
Proof.
  unfold PyFloat.sub, SFsub. now rewrite Z.sub_diag.
Qed.

Lemma sub_self_zero (s : bool) :
  PyFloat.sub (S754_zero s) (S754_zero s) = S754_zero false.
Proof. now destruct s. Qed.

Lemma compute_scale_zp_degenerate (x : PyFloat.float) (p : Precision) :
  PyFloat.sub x x = S754_zero false ->
  compute_scale_zp x x p = raise ZeroDivisionError.
Proof.
  intro H. unfold compute_scale_zp. rewrite H.
  destruct p; reflexivity.
Qed.

Lemma quantize_tensor_degenerate (x : PyFloat.float) (n : nat) (p : Precision) :
  PyFloat.sub x x = S754_zero false ->
  quantize_tensor (repeat x (S n)) p = raise ZeroDivisionError.
Proof.
  intro H. cbn [repeat quantize_tensor py_min py_max].
  rewrite min_from_repeat, max_from_repeat. cbn [bind ret].
  now rewrite compute_scale_zp_degenerate.
Qed.

(** C2. Degenerate quantization range: on a non-empty list that repeats
    one finite value (so that its minimum equals its maximum),
    [quantize_tensor] raises [ZeroDivisionError] for every precision
    kind: the scale is [0.0] and [min_val / scale] is not guarded. *)
Theorem quantize_tensor_degenerate_range (p : Precision) (n : nat) :
  (forall s m e,
      quantize_tensor (repeat (S754_finite s m e) (S n)) p
      = raise ZeroDivisionError)
  /\ (forall s,
      quantize_tensor (repeat (S754_zero s) (S n)) p = raise ZeroDivisionError)
  /\ quantize_tensor [PyFloat.one] p = raise ZeroDivisionError.
Proof.
  split; [| split].
  - intros s m e. apply quantize_tensor_degenerate, sub_self_finite.
  - intro s. apply quantize_tensor_degenerate, sub_self_zero.
  - apply (quantize_tensor_degenerate PyFloat.one 0). reflexivity.
Qed.

(** C3. Round trip at the values [10.0, 11.0] and 8-bit precision: the
    zero point is clamped to 0, both values quantize to 255, and the
    reconstruction [(q - zero_point) * scale] is 1.0 up to rounding: it
    misses 10.0 by more than [scale / 2 + 8] and 11.0 by more than
    [scale / 2 + 9]. *)
Theorem quantize_tensor_round_trip_fails :
  exists scale,
    quantize_tensor [PyFloat.lit 10 0; PyFloat.lit 11 0] INT8
    = ret ([255; 255], scale, 0)
    /\ (PyFloat.to_Q scale / 2 + 8
        < Qabs (dequantize scale 0 255 - PyFloat.to_Q (PyFloat.lit 10 0)))%Q
    /\ (PyFloat.to_Q scale / 2 + 9
        < Qabs (dequantize scale 0 255 - PyFloat.to_Q (PyFloat.lit 11 0)))%Q.
Proof.
  eexists. split; [vm_compute; reflexivity|].
  split; vm_compute; reflexivity.
Qed.

Lemma quantize_value_inv (scale : PyFloat.float) (zp : Z) (p : Precision)
    (v : PyFloat.float) (q : Z) :
  quantize_value scale zp p v = ret q ->
  (exists x r,
      PyFloat.div v scale = ret x /\ PyFloat.round x = ret r
      /\ q = Z.max 0 (Z.min (2 ^ bit_width p - 1) (r + zp)))
  /\ 0 <= q <= 2 ^ bit_width p - 1.
Proof.
  unfold quantize_value. intro H.
  apply bind_inv in H. destruct H as (x & Hx & H).
  apply bind_inv in H. destruct H as (r & Hr & H).
  apply ret_inj in H.
  rewrite Z.shiftl_1_l in H.
  assert (0 < 2 ^ bit_width p) by (destruct p; reflexivity).
  split; [exists x, r; auto | lia].
Qed.

Lemma pack_e_length (v : Z) (c : list Z) : Struct.pack_e v = ret c -> List.length c = 2%nat.
Proof.
  unfold Struct.pack_e. intro H.
  destruct (Struct.as_double v) as [e | x]; cbn [bind] in H;
    [destruct e; discriminate H|].
  destruct (Struct.half_bits x) as [e | bits]; cbn [bind] in H;
    [destruct e; discriminate H|].
  apply ret_inj in H. now subst.
Qed.

Lemma pack_f_length (v : Z) (c : list Z) : Struct.pack_f v = ret c -> List.length c = 4%nat.
Proof.
  unfold Struct.pack_f. intro H.
  apply bind_inv in H. destruct H as (x & _ & H).
  apply ret_inj in H. now subst.
Qed.

Lemma struct_pack_length (p : Precision) (v : Z) (c : list Z) :
  struct_pack p v = ret c -> List.length c = float_width p.
Proof. destruct p; cbn [struct_pack float_width]; eauto using pack_e_length, pack_f_length. Qed.

Lemma pack_values_float_kind (values : list Z) (p : Precision) :
  float_kind p = true ->
  _pack_values values p
  = (chunks <- mapM (struct_pack p) values ;; ret (List.concat chunks)).
Proof. destruct p; cbn [float_kind]; intro H; try discriminate H; reflexivity. Qed.

Lemma concat_length_const {A : Type} (w : nat) (chunks : list (list A)) :
  Forall (fun c => List.length c = w) chunks ->
  List.length (List.concat chunks) = (w * List.length chunks)%nat.
Proof.
  induction 1 as [| c chunks Hc _ IH]; cbn [List.concat List.length]; [lia|].
  rewrite length_app, IH, Hc. lia.
Qed.

Lemma Forall2_length' {A B : Type} (R : A -> B -> Prop) (xs : list A) (ys : list B) :
  Forall2 R xs ys -> List.length xs = List.length ys.
Proof. induction 1; cbn; congruence. Qed.

(** C5. For the kinds FP16, BF16 and FP32, a result of
    [quantize_tensor] on a non-empty list is the packing, as 2- or
    4-byte floats, of the clamped integers [round(v / scale) + zero_point]
    in [0, 2^bit_width - 1], not of the input values. *)
Theorem quantize_tensor_packs_quantized_integers
    (values : list PyFloat.float) (p : Precision)
    (packed : list Z) (scale : PyFloat.float) (zero_point : Z) :
  float_kind p = true ->
  values <> [] ->
  quantize_tensor values p = ret (packed, scale, zero_point) ->
  exists quantized chunks,
    Forall2 (fun v q =>
               exists x r,
                 PyFloat.div v scale = ret x /\ PyFloat.round x = ret r
                 /\ q = Z.max 0 (Z.min (2 ^ bit_width p - 1) (r + zero_point)))
            values quantized
    /\ Forall (fun q => 0 <= q <= 2 ^ bit_width p - 1) quantized
    /\ Forall2 (fun q c => struct_pack p q = ret c
                           /\ List.length c = float_width p)
               quantized chunks
    /\ packed = List.concat chunks
    /\ List.length packed = (float_width p * List.length values)%nat.
Proof.
  intros Hk Hne H. unfold quantize_tensor in H.
  destruct values as [| v0 vs]; [contradiction|].
  apply bind_inv in H. destruct H as (min_val & _ & H).
  apply bind_inv in H. destruct H as (max_val & _ & H).
  apply bind_inv in H. destruct H as ([scale' zp'] & _ & H).
  apply bind_inv in H. destruct H as (quantized & Hq & H).
  apply bind_inv in H. destruct H as (packed' & Hp & H).
  apply ret_inj in H. injection H as -> -> ->.
  rewrite pack_values_float_kind in Hp by assumption.
  apply bind_inv in Hp. destruct Hp as (chunks & Hc & Hp).
  apply ret_inj in Hp. subst packed.
  apply mapM_Forall2 in Hq. apply mapM_Forall2 in Hc.
  assert (Hc' : Forall2 (fun q c => struct_pack p q = ret c
                                    /\ List.length c = float_width p)
                        quantized chunks).
  { eapply Forall2_impl; [| exact Hc]. cbn beta.
    intros q c Hqc. split; [assumption | eauto using struct_pack_length]. }
  exists quantized, chunks. split; [| split; [| split; [| split]]].
  - eapply Forall2_impl; [| exact Hq]. cbn beta.
    intros v q Hv. now apply quantize_value_inv in Hv.
  - clear - Hq. induction Hq as [| v q vs' qs Hv _ IH]; constructor; [|assumption].
    now apply quantize_value_inv in Hv.
  - exact Hc'.
  - reflexivity.
  - rewrite (concat_length_const (float_width p)).
    + rewrite (Forall2_length' _ _ _ Hq), (Forall2_length' _ _ _ Hc). reflexivity.
    + clear - Hc'. induction Hc' as [| q c qs cs [_ Hl] _ IH]; constructor; assumption.
Qed.

Lemma quantize_tensor_packs_quantized_integers_witness :
  exists scale,
    quantize_tensor [PyFloat.zero; PyFloat.one] FP32
    = ret ([0; 0; 0; 0; 0; 0; 128; 79], scale, 0)
    /\ exists quantized chunks,
         Forall2 (fun v q =>
                    exists x r,
                      PyFloat.div v scale = ret x /\ PyFloat.round x = ret r
                      /\ q = Z.max 0 (Z.min (2 ^ bit_width FP32 - 1) (r + 0)))
                 [PyFloat.zero; PyFloat.one] quantized
         /\ Forall (fun q => 0 <= q <= 2 ^ bit_width FP32 - 1) quantized
         /\ Forall2 (fun q c => struct_pack FP32 q = ret c
                                /\ List.length c = float_width FP32)
                    quantized chunks
         /\ [0; 0; 0; 0; 0; 0; 128; 79] = List.concat chunks
         /\ List.length [0; 0; 0; 0; 0; 0; 128; 79]
            = (float_width FP32 * List.length [PyFloat.zero; PyFloat.one])%nat.
Proof.
  eexists. split; [vm_compute; reflexivity|].
  apply (quantize_tensor_packs_quantized_integers
           [PyFloat.zero; PyFloat.one] FP32).
  - reflexivity.
  - discriminate.
  - vm_compute. reflexivity.
Defined.

Example quantize_tensor_fp32_not_input_floats :
  exists scale,
    quantize_tensor [PyFloat.zero; PyFloat.one] FP32
    = ret ([0; 0; 0; 0] ++ [0; 0; 128; 79], scale, 0)
    /\ Struct.pack_f 4294967295 = ret [0; 0; 128; 79]
    /\ Struct.pack_f 1 = ret [0; 0; 128; 63].
Proof. eexists. repeat split; vm_compute; reflexivity. Qed.

Example quantize_tensor_fp16_overflow :
  quantize_tensor [PyFloat.zero; PyFloat.one] FP16 = raise StructError
  /\ quantize_tensor [PyFloat.zero; PyFloat.one] BF16 = raise StructError.
Proof. split; vm_compute; reflexivity. Qed.

(** ** Memory strings *)

Section UnitLetters.

Local Open Scope string_scope.

Ltac unit_cases H :=
  destruct H as [<- | [<- | [<- | [<- | []]]]].

Lemma upper_app (a b : string) :
  PyStr.upper (a ++ b) = PyStr.upper a ++ PyStr.upper b.
Proof. induction a as [| c a IH]; cbn; [reflexivity | now rewrite IH]. Qed.

Lemma app_assoc_string (a b c : string) : (a ++ b) ++ c = a ++ (b ++ c).
Proof. induction a as [| x a IH]; cbn; [reflexivity | now rewrite IH]. Qed.

(** Stripping keeps a tail that starts and ends with a character that is
    not white space. *)
Lemma lstrip_tail (u w : string) (c : ascii) :
  PyStr.is_space c = false ->
  exists u', PyStr.lstrip (u ++ String c w) = u' ++ String c w.
Proof.
  intro Hc. induction u as [| a u IH]; cbn [append PyStr.lstrip].
  - rewrite Hc. now exists "".
  - destruct (PyStr.is_space a); [exact IH|]. now exists (String a u).
Qed.

Lemma rstrip_tail (u w : string) :
  w <> "" -> PyStr.rstrip w = w -> PyStr.rstrip (u ++ w) = u ++ w.
Proof.
  intros Hne Hw. induction u as [| a u IH]; cbn [append PyStr.rstrip].
  - exact Hw.
  - rewrite IH. destruct u; [destruct w; [contradiction | reflexivity] | reflexivity].
Qed.

Lemma strip_tail (u w : string) (c : ascii) :
  PyStr.is_space c = false ->
  PyStr.rstrip (String c w) = String c w ->
  exists u', PyStr.strip (u ++ String c w) = u' ++ String c w.
Proof.
  intros Hc Hw. unfold PyStr.strip.
  destruct (lstrip_tail u w c Hc) as [u' ->].
  exists u'. apply rstrip_tail; [discriminate | assumption].
Qed.

Lemma strip_underscores_tail (c : ascii) (u : string) (prev : ascii) :
  unit_letter c ->
  PyStr.strip_underscores prev (u ++ String c "") = None
  \/ exists u', PyStr.strip_underscores prev (u ++ String c "") = Some (u' ++ String c "").
Proof.
  intro Hc. revert prev. induction u as [| a u IH]; intro prev; cbn [append PyStr.strip_underscores].
  - destruct (Ascii.eqb prev "_"); unit_cases Hc; cbn; auto; right; now exists "".
  - destruct (Ascii.eqb a "_").
    + destruct (PyStr.is_digit prev); [apply IH | now left].
    + destruct (Ascii.eqb prev "_" && negb (PyStr.is_digit a)); [now left|].
      destruct (IH a) as [-> | [u' ->]]; [now left|].
      right. now exists (String a u').
Qed.

Lemma take_sign_tail (c : ascii) (u : string) :
  unit_letter c ->
  exists u', snd (PyStr.take_sign (u ++ String c "")) = u' ++ String c "".
Proof.
  intro Hc. destruct u as [| a u]; cbn [append PyStr.take_sign].
  - unit_cases Hc; cbn; now exists "".
  - destruct (Ascii.eqb a "-"); [now exists u|].
    destruct (Ascii.eqb a "+"); [now exists u|].
    now exists (String a u).
Qed.

Lemma digits_from_tail (c : ascii) (u : string) (count : nat) (acc : Z) :
  unit_letter c ->
  exists u', snd (PyStr.digits_from count acc (u ++ String c ""))
             = u' ++ String c "".
Proof.
  intro Hc. revert count acc.
  induction u as [| a u IH]; intros count acc; cbn [append PyStr.digits_from].
  - unit_cases Hc; cbn; now exists "".
  - destruct (PyStr.is_digit a); [apply IH|]. now exists (String a u).
Qed.

Lemma tail_not_empty (c : ascii) (u : string) : u ++ String c "" <> "".
Proof. destruct u; discriminate. Qed.

Lemma exponent_part_tail (c : ascii) (u : string) :
  unit_letter c -> PyStr.exponent_part (u ++ String c "") = None.
Proof.
  intro Hc. destruct u as [| a u]; cbn [append PyStr.exponent_part].
  - unit_cases Hc; reflexivity.
  - destruct (Ascii.eqb a "E" || Ascii.eqb a "e"); [|reflexivity].
    destruct (take_sign_tail c u Hc) as [u1 H1].
    destruct (PyStr.take_sign (u ++ String c "")) as [neg body].
    cbn [snd] in H1. subst body.
    destruct (digits_from_tail c u1 0 0 Hc) as [u2 H2].
    destruct (PyStr.digits_from 0 0 (u1 ++ String c "")) as [[n v] rest].
    cbn [snd] in H2. subst rest.
    destruct n; [reflexivity|].
    destruct u2; reflexivity.
Qed.

Lemma last_char_tail (c : ascii) (u : string) :
  last_char (u ++ String c "") = Some c.
Proof.
  induction u as [| a u IH]; [reflexivity|].
  cbn [append last_char]. rewrite IH. now destruct u.
Qed.

Lemma not_special_tail (c : ascii) (u : string) :
  unit_letter c ->
  let special := PyStr.upper (u ++ String c "") in
  String.eqb special "INF" = false
  /\ String.eqb special "INFINITY" = false
  /\ String.eqb special "NAN" = false.
Proof.
  intros Hc special. subst special. rewrite upper_app.
  assert (Hl : last_char (PyStr.upper u ++ PyStr.upper (String c "")) = Some c).
  { unit_cases Hc; apply last_char_tail. }
  repeat split; apply String.eqb_neq; intro He; rewrite He in Hl;
    unit_cases Hc; discriminate Hl.
Qed.

(** No float literal ends in a unit letter. *)
Lemma to_float_rejects_unit_letter (c : ascii) (u : string) :
  unit_letter c ->
  PyStr.to_float (u ++ String c "") = raise ValueError.
Proof.
  intro Hc. unfold PyStr.to_float.
  assert (Hs : PyStr.is_space c = false) by (unit_cases Hc; reflexivity).
  assert (Hr : PyStr.rstrip (String c "") = String c "")
    by (unit_cases Hc; reflexivity).
  destruct (strip_tail u "" c Hs Hr) as [u1 ->].
  destruct (strip_underscores_tail c u1 Ascii.zero Hc) as [-> | [u2 ->]];
    [reflexivity|].
  destruct (take_sign_tail c u2 Hc) as [u3 H3].
  destruct (PyStr.take_sign (u2 ++ String c "")) as [neg body].
  cbn [snd] in H3. subst body.
  destruct (not_special_tail c u3 Hc) as (-> & -> & ->). cbn [orb].
  destruct (digits_from_tail c u3 0 0 Hc) as [u4 H4].
  destruct (PyStr.digits_from 0 0 (u3 ++ String c "")) as [[n1 ip] r1].
  cbn [snd] in H4. subst r1.
  assert (Hr2 : exists n2 m u5,
             match u4 ++ String c "" with
             | String a r =>
                 if Ascii.eqb a "." then PyStr.digits_from 0 ip r
                 else (0%nat, ip, u4 ++ String c "")
             | EmptyString => (0%nat, ip, u4 ++ String c "")
             end = (n2, m, u5 ++ String c "")).
  { destruct u4 as [| a u4]; cbn [append].
    - exists 0%nat, ip, "". unit_cases Hc; reflexivity.
    - destruct (Ascii.eqb a ".").
      + destruct (digits_from_tail c u4 0 ip Hc) as [u5 H5].
        destruct (PyStr.digits_from 0 ip (u4 ++ String c "")) as [[n2 m] r2].
        cbn [snd] in H5. subst r2. now exists n2, m, u5.
      + now exists 0%nat, ip, (String a u4). }
  destruct Hr2 as (n2 & m & u5 & ->).
  rewrite exponent_part_tail by assumption.
  now destruct (n1 + n2)%nat.
Qed.

(** Every text that ends in one of [KB], [MB], [GB], [TB] is cut at the
    unit [B] and rejected. *)
Lemma parse_memory_rejects_multiple (c : ascii) (t : string) :
  unit_letter c ->
  parse_memory (t ++ String c "B") = raise ValueError.
Proof.
  intro Hc. unfold parse_memory. rewrite upper_app.
  assert (Hu : PyStr.upper (String c "B") = String c "B")
    by (unit_cases Hc; reflexivity).
  assert (Hs : PyStr.is_space c = false) by (unit_cases Hc; reflexivity).
  rewrite Hu.
  destruct (strip_tail (PyStr.upper t) "B" c Hs) as [u ->].
  { unit_cases Hc; reflexivity. }
  cbn [units parse_memory_units].
  replace (PyStr.endswith (u ++ String c "B") "B") with true.
  2:{ symmetry. apply endswith_iff. exists (u ++ String c "").
      now rewrite app_assoc_string. }
  change (String c "B") with (String c "" ++ "B").
  rewrite <- app_assoc_string, drop_last_app.
  now rewrite to_float_rejects_unit_letter.
Qed.

(** C1. [parse_memory] on binary-multiple suffixes: the unit [B] is
    tried first and is a suffix of every other unit, so every text that
    ends in [KB], [MB], [GB] or [TB] is read as a number that ends in
    [K], [M], [G] or [T] and raises [ValueError], ["16GB"] and ["512MB"]
    among them; a plain byte count and a [B] suffix are parsed; text
    that is not a number raises [ValueError]. *)
Theorem parse_memory_unit_suffixes :
  (forall t, parse_memory (t ++ "KB") = raise ValueError)
  /\ (forall t, parse_memory (t ++ "MB") = raise ValueError)
  /\ (forall t, parse_memory (t ++ "GB") = raise ValueError)
  /\ (forall t, parse_memory (t ++ "TB") = raise ValueError)
  /\ parse_memory "16GB" = raise ValueError
  /\ parse_memory "512MB" = raise ValueError
  /\ parse_memory "16gb" = raise ValueError
  /\ parse_memory "1024" = ret 1024
  /\ parse_memory "16B" = ret 16
  /\ parse_memory "sixteen" = raise ValueError.
Proof.
  split; [| split; [| split; [| split]]];
    try (intro t; apply parse_memory_rejects_multiple; unfold unit_letter;
         cbn; tauto).
  repeat split; vm_compute; reflexivity.
Qed.

End UnitLetters.

(** * Further properties *)

(** ** Precision table and configuration *)

(** X1. The two tables of [Precision] agree: for every kind,
    [bytes_per_element] times 8 is [bit_width]. *)
Theorem bytes_per_element_is_bit_width_over_8 (p : Precision) :
  (num_to_Q (bytes_per_element p) * 8 == inject_Z (bit_width p))%Q.
Proof. destruct p; vm_compute; reflexivity. Qed.

Lemma Precision_of_value_value (p : Precision) :
  Precision_of_value (precision_value p) = ret p.
Proof. destruct p; reflexivity. Qed.

Lemma Precision_of_value_inv (value : string) (p : Precision) :
  Precision_of_value value = ret p -> value = precision_value p.
Proof.
  unfold Precision_of_value. intro H.
  destruct (find _ all_precisions) as [q |] eqn:Hf; [| discriminate H].
  apply ret_inj in H. subst q.
  apply find_some in Hf. destruct Hf as [_ He].
  apply String.eqb_eq in He. now symmetry.
Qed.

Lemma Precision_of_value_error (value : string) :
  Precision_of_value value = raise ValueError
  \/ exists p, Precision_of_value value = ret p.
Proof.
  unfold Precision_of_value.
  destruct (find _ all_precisions) as [q |]; [right; now exists q | now left].
Qed.

(** X2. [Precision(value)] returns a member exactly for that member's
    own value string, and raises [ValueError] for every other string
    (the lookup is by value and case-sensitive: ["INT4"] is rejected). *)
Theorem Precision_of_value_round_trip (value : string) :
  (forall p, Precision_of_value value = ret p <-> value = precision_value p)
  /\ ((forall p, value <> precision_value p) ->
      Precision_of_value value = raise ValueError).
Proof.
  split.
  - intro p. split; [apply Precision_of_value_inv|].
    intros ->. apply Precision_of_value_value.
  - intro Hno. destruct (Precision_of_value_error value) as [H | [p H]];
      [assumption|].
    apply Precision_of_value_inv in H. now destruct (Hno p).
Qed.

Lemma Precision_of_value_round_trip_witness :
  (forall p, "INT4"%string <> precision_value p)
  /\ Precision_of_value "INT4" = raise ValueError.
Proof.
  assert (H : forall p, "INT4"%string <> precision_value p)
    by (intro p; destruct p; discriminate).
  split; [exact H|].
  exact (proj2 (Precision_of_value_round_trip "INT4") H).
Defined.

(** X3. [from_json] succeeds exactly when the expert precision string
    (["int8"] when absent) and the router precision string (["fp16"]
    when absent) are values of [Precision]; the configuration it returns
    has those two precisions, and always the shared precision FP16 and
    12 layers, which the JSON cannot set; otherwise it raises
    [ValueError]. *)
Theorem from_json_precisions (model : ModelJson) :
  ((exists config, from_json model = ret config)
   <-> exists ep rp,
        get (quantization_expertPrecision model) "int8"%string = precision_value ep
        /\ get (quantization_routerPrecision model) "fp16"%string = precision_value rp)
  /\ (forall config, from_json model = ret config ->
        precision_value (expert_precision config)
        = get (quantization_expertPrecision model) "int8"%string
        /\ precision_value (router_precision config)
           = get (quantization_routerPrecision model) "fp16"%string
        /\ shared_precision config = FP16
        /\ num_layers config = 12)
  /\ ((forall config, from_json model <> ret config) ->
      from_json model = raise ValueError).
Proof.
  split; [| split].
  - split.
    + intros [config H]. unfold from_json in H.
      apply bind_inv in H. destruct H as (ep & Hep & H).
      apply bind_inv in H. destruct H as (rp & Hrp & _).
      exists ep, rp. split; now apply Precision_of_value_inv.
    + intros (ep & rp & Hep & Hrp). unfold from_json.
      rewrite Hep, Hrp, !Precision_of_value_value. cbn [bind ret].
      eexists. reflexivity.
  - intros config H. unfold from_json in H.
    apply bind_inv in H. destruct H as (ep & Hep & H).
    apply bind_inv in H. destruct H as (rp & Hrp & H).
    apply ret_inj in H. subst config.
    cbn [expert_precision router_precision shared_precision num_layers].
    apply Precision_of_value_inv in Hep, Hrp. auto.
  - intro Hno. unfold from_json.
    destruct (Precision_of_value_error
                (get (quantization_expertPrecision model) "int8"%string))
      as [-> | [ep Hep]]; [reflexivity|].
    destruct (Precision_of_value_error
                (get (quantization_routerPrecision model) "fp16"%string))
      as [Hrp | [rp Hrp]]; [rewrite Hep, Hrp; reflexivity|].
    exfalso. eapply Hno. unfold from_json. rewrite Hep, Hrp. reflexivity.
Qed.

Lemma from_json_precisions_witness :
  exists config,
    from_json empty_model_json = ret config
    /\ precision_value (expert_precision config) = "int8"%string
    /\ precision_value (router_precision config) = "fp16"%string
    /\ shared_precision config = FP16
    /\ num_layers config = 12.
Proof.
  eexists. split; [reflexivity|].
  exact (proj1 (proj2 (from_json_precisions empty_model_json)) _ eq_refl).
Defined.

(** ** Experts and the plan *)

Lemma size_bytes_by_numel (t1 t2 : TensorSpec) :
  numel t1 = numel t2 -> precision t1 = precision t2 ->
  size_bytes t1 = size_bytes t2.
Proof. unfold size_bytes. now intros -> ->. Qed.

Lemma total_bytes_build_expert (config : AtomicExpertConfig) (id : string) :
  total_bytes (build_expert config id)
  = (s <- size_bytes (up_proj (build_expert config id)) ;; ret (3 * s)).
Proof.
  assert (Hd : size_bytes (down_proj (build_expert config id))
               = size_bytes (up_proj (build_expert config id))).
  { apply size_bytes_by_numel; [| reflexivity].
    unfold numel. cbn [fold_left shape down_proj up_proj build_expert]. ring. }
  assert (Hg : forall g, gate_proj (build_expert config id) = Some g ->
                         size_bytes g = size_bytes (up_proj (build_expert config id))).
  { intros g H. cbn in H. injection H as <-.
    apply size_bytes_by_numel; reflexivity. }
  unfold total_bytes. rewrite Hd.
  destruct (gate_proj (build_expert config id)) as [g |] eqn:Eg;
    [| discriminate Eg].
  rewrite (Hg g eq_refl).
  destruct (size_bytes (up_proj (build_expert config id))) as [e | s];
    cbn [bind ret]; [reflexivity|].
  f_equal. lia.
Qed.

Lemma total_bytes_any_id (config : AtomicExpertConfig) (id id' : string) :
  total_bytes (build_expert config id') = total_bytes (build_expert config id).
Proof.
  rewrite !total_bytes_build_expert.
  now rewrite (size_bytes_by_numel (up_proj (build_expert config id'))
                                   (up_proj (build_expert config id))).
Qed.

(** X4. Every expert that [build_expert] makes has [total_bytes] equal
    to three times the [size_bytes] of its up projection, and the same
    [total_bytes] whatever its id. *)
Theorem expert_total_bytes_uniform (config : AtomicExpertConfig) (id id' : string) :
  total_bytes (build_expert config id)
  = (s <- size_bytes (up_proj (build_expert config id)) ;; ret (3 * s))
  /\ total_bytes (build_expert config id') = total_bytes (build_expert config id).
Proof. split; [apply total_bytes_build_expert | apply total_bytes_any_id]. Qed.

(** What [plan_step] appends for one allocation. *)
Lemma plan_step_records (ec : AtomicExpertConfig) (st st' : PlanState)
    (alloc : NodeAllocation) :
  plan_step ec st alloc = ret st' ->
  exists n details,
    st_nodes st' = st_nodes st ++ [n]
    /\ st_experts st' = st_experts st ++ details
    /\ ni_node_id n = node_id alloc
    /\ ni_device n = device alloc
    /\ memory_budget_bytes n = memory_budget alloc
    /\ memory_used_bytes n = memory_used alloc
    /\ ni_experts n = experts alloc
    /\ expert_count n = Z.of_nat (List.length (experts alloc))
    /\ mapM (expert_info ec alloc) (experts alloc) = ret details.
Proof.
  unfold plan_step. intro H.
  apply bind_inv in H. destruct H as (u & _ & H).
  apply bind_inv in H. destruct H as (details & Hd & H).
  apply ret_inj in H. subst st'. cbn [st_nodes st_experts].
  eexists. exists details. repeat split; try reflexivity. exact Hd.
Qed.

Lemma plan_fold_records (ec : AtomicExpertConfig) (allocs : list NodeAllocation)
    (st0 st : PlanState) :
  foldM (plan_step ec) allocs st0 = ret st ->
  exists nds,
    Forall2 (record_of_alloc ec) allocs nds
    /\ st_nodes st = st_nodes st0 ++ map fst nds
    /\ st_experts st = st_experts st0 ++ flat_map snd nds.
Proof.
  revert st0; induction allocs as [| a allocs IH]; intros st0 H; cbn [foldM] in H.
  - apply ret_inj in H. subst. exists []. cbn. rewrite !app_nil_r.
    repeat split. constructor.
  - apply bind_inv in H. destruct H as (st1 & H1 & H).
    destruct (plan_step_records _ _ _ _ H1)
      as (n & ds & Hn & He & R1 & R2 & R3 & R4 & R5 & R6 & R7).
    destruct (IH _ H) as (nds & Hall & Hns & Hes).
    exists ((n, ds) :: nds). split; [| split].
    + constructor; [| assumption]. unfold record_of_alloc. cbn [fst snd]. tauto.
    + rewrite Hns, Hn, <- app_assoc. reflexivity.
    + rewrite Hes, He, <- app_assoc. reflexivity.
Qed.

Lemma plan_records (config : Config) (ec : AtomicExpertConfig)
    (plan : DeploymentPlan) :
  generate_deployment_plan config ec = ret plan ->
  exists allocs nds,
    Forall2 (fun node a => allocate_node ec (collect_experts config) node = ret a)
            (cluster_nodes config) allocs
    /\ Forall2 (record_of_alloc ec) allocs nds
    /\ nodes (cluster plan) = map fst nds
    /\ plan_experts plan = flat_map snd nds.
Proof.
  unfold generate_deployment_plan. intro H.
  apply bind_inv in H. destruct H as (allocs & Hallocs & H).
  apply bind_inv in H. destruct H as (router_dict & _ & H).
  apply bind_inv in H. destruct H as (st & Hst & H).
  apply ret_inj in H. subst plan. cbn [cluster nodes plan_experts].
  destruct (plan_fold_records _ _ _ _ Hst) as (nds & Hall & Hns & Hes).
  exists allocs, nds. repeat split; try assumption.
  now apply mapM_Forall2.
Qed.

Lemma mapM_const {A B : Type} (f : A -> result B) (b : B) (l : list A) :
  (forall x, f x = ret b) -> mapM f l = ret (map (fun _ => b) l).
Proof.
  intro Hf. induction l as [| x l IH]; cbn [mapM map]; [reflexivity|].
  now rewrite Hf, IH.
Qed.

Lemma py_sum_const {A : Type} (b : Z) (l : list A) :
  py_sum (map (fun _ => b) l) = Z.of_nat (List.length l) * b.
Proof.
  induction l as [| x l IH]; [reflexivity|].
  cbn [map List.length]. unfold py_sum in *. cbn [fold_right]. rewrite IH. lia.
Qed.

Lemma allocate_node_used (ec : AtomicExpertConfig) (all : list string)
    (node : NodeConfig) (a : NodeAllocation) (any_id : string) (b : Z) :
  total_bytes (build_expert ec any_id) = ret b ->
  allocate_node ec all node = ret a ->
  memory_used a = Z.of_nat (List.length (experts a)) * b.
Proof.
  intros Hb Ha.
  destruct (allocate_node_inv _ _ _ _ Ha) as (_ & sizes & Hs & ->).
  rewrite (mapM_const _ b) in Hs.
  - apply ret_inj in Hs. subst sizes. apply py_sum_const.
  - intro id. now rewrite (total_bytes_any_id ec any_id id).
Qed.

(** X5. In every plan that [generate_deployment_plan] returns, the
    memory used by a node is its expert count times the [total_bytes]
    of one built expert, and the plan's total used memory is the sum of
    the expert counts times that size. *)
Theorem node_memory_is_count_times_expert (config : Config)
    (expert_config : AtomicExpertConfig) (plan : DeploymentPlan)
    (any_id : string) (b : Z) :
  generate_deployment_plan config expert_config = ret plan ->
  total_bytes (build_expert expert_config any_id) = ret b ->
  Forall (fun n => memory_used_bytes n = expert_count n * b)
         (nodes (cluster plan))
  /\ total_memory_used (cluster plan)
     = py_sum (map expert_count (nodes (cluster plan))) * b.
Proof.
  intros Hplan Hb.
  destruct (plan_records _ _ _ Hplan) as (allocs & nds & Hal & Hrec & Hn & _).
  assert (Hall : Forall (fun n => memory_used_bytes n = expert_count n * b)
                        (nodes (cluster plan))).
  { rewrite Hn. clear Hn Hplan. revert nds Hrec.
    induction Hal as [| node a nodes' allocs' Ha _ IH]; intros nds Hrec;
      inversion Hrec as [| a' nd allocs'' nds' R Hrest]; subst; cbn [map];
      constructor; [| now apply IH].
    destruct R as (_ & _ & _ & Hu & _ & Hc & _).
    rewrite Hu, Hc. eapply allocate_node_used; eassumption. }
  split; [exact Hall|].
  unfold generate_deployment_plan in Hplan.
  apply bind_inv in Hplan. destruct Hplan as (allocs' & _ & H).
  apply bind_inv in H. destruct H as (router_dict & _ & H).
  apply bind_inv in H. destruct H as (st & Hst & H).
  apply ret_inj in H. subst plan.
  cbn [cluster nodes total_memory_used] in *.
  destruct (plan_fold_inv _ _ _ _ Hst) as (ns & Hns & _ & Hu & _).
  cbn [st_nodes total_used app] in Hns, Hu. rewrite Hns in *. rewrite Hu.
  clear - Hall. induction Hall as [| n ns Hn _ IH]; [reflexivity|].
  unfold py_sum in *. cbn [map fold_right]. rewrite Hn. lia.
Qed.

Lemma node_memory_is_count_times_expert_witness :
  exists plan,
    generate_deployment_plan small_budget_config default_expert_config = ret plan
    /\ total_bytes (build_expert default_expert_config "sample") = ret 1572864
    /\ Forall (fun n => memory_used_bytes n = expert_count n * 1572864)
              (nodes (cluster plan)).
Proof.
  eexists. split; [vm_compute; reflexivity|].
  split; [reflexivity|].
  refine (proj1 (node_memory_is_count_times_expert
                   small_budget_config default_expert_config _ "sample" 1572864
                   _ _)).
  - vm_compute. reflexivity.
  - reflexivity.
Defined.

Lemma expert_info_fields (ec : AtomicExpertConfig) (a : NodeAllocation)
    (id : string) (d : ExpertInfo) :
  expert_info ec a id = ret d ->
  ei_id d = id /\ ei_node d = node_id a /\ ei_device d = device a
  /\ total_bytes (build_expert ec id) = ret (ei_total_bytes d).
Proof.
  unfold expert_info. intro H.
  apply bind_inv in H. destruct H as (up & _ & H).
  apply bind_inv in H. destruct H as (down & _ & H).
  apply bind_inv in H. destruct H as (gate & _ & H).
  apply bind_inv in H. destruct H as (total & Ht & H).
  apply ret_inj in H. subst d. cbn. auto.
Qed.

Lemma details_of_record (ec : AtomicExpertConfig) (a : NodeAllocation)
    (nd : NodeInfo * list ExpertInfo) :
  record_of_alloc ec a nd ->
  map (fun d => (ei_node d, ei_device d, ei_id d)) (snd nd)
  = map (fun id => (ni_node_id (fst nd), ni_device (fst nd), id))
        (ni_experts (fst nd))
  /\ Forall (fun d => total_bytes (build_expert ec (ei_id d))
                      = ret (ei_total_bytes d)) (snd nd).
Proof.
  intros (Hid & Hdev & _ & _ & Hexp & _ & Hm).
  rewrite Hid, Hdev, Hexp. apply mapM_Forall2 in Hm.
  clear Hid Hdev Hexp.
  induction Hm as [| id d ids ds Hd _ [IH1 IH2]].
  - split; [reflexivity | constructor].
  - apply expert_info_fields in Hd. destruct Hd as (E1 & E2 & E3 & E4).
    split.
    + cbn [map]. rewrite IH1, E1, E2, E3. reflexivity.
    + constructor; [now rewrite E1 | assumption].
Qed.

(** X6. In every plan that [generate_deployment_plan] returns, the node
    records follow the configured nodes one by one and in order: id
    (["unknown"] when absent), device (["cpu"] when absent) and the
    budget parsed from the memory string (["8GB"] when absent); the
    expert detail records are, in order, the experts of each node with
    that node's id and device; and each detail's size is the
    [total_bytes] of the expert built for its id. *)
Theorem plan_records_follow_configuration (config : Config)
    (expert_config : AtomicExpertConfig) (plan : DeploymentPlan) :
  generate_deployment_plan config expert_config = ret plan ->
  Forall2 (fun node n =>
             ni_node_id n = get (node_config_id node) "unknown"%string
             /\ ni_device n = get (gpu_device (node_config_gpu node)) "cpu"%string
             /\ parse_memory (get (gpu_memory (node_config_gpu node)) "8GB"%string)
                = ret (memory_budget_bytes n))
          (cluster_nodes config) (nodes (cluster plan))
  /\ map (fun d => (ei_node d, ei_device d, ei_id d)) (plan_experts plan)
     = flat_map (fun n => map (fun id => (ni_node_id n, ni_device n, id))
                              (ni_experts n))
                (nodes (cluster plan))
  /\ Forall (fun d => total_bytes (build_expert expert_config (ei_id d))
                      = ret (ei_total_bytes d))
            (plan_experts plan).
Proof.
  intro Hplan.
  destruct (plan_records _ _ _ Hplan) as (allocs & nds & Hal & Hrec & -> & ->).
  split; [| split].
  - clear Hplan. revert nds Hrec.
    induction Hal as [| node a nodes' allocs' Ha _ IH]; intros nds Hrec;
      inversion Hrec as [| a' nd allocs'' nds' R Hrest]; subst; cbn [map];
      constructor; [| now apply IH].
    destruct R as (Hid & Hdev & Hb & _).
    unfold allocate_node in Ha.
    apply bind_inv in Ha. destruct Ha as (budget & Hbudget & Ha).
    apply bind_inv in Ha. destruct Ha as (used & _ & Ha).
    apply ret_inj in Ha. subst a. cbn in Hid, Hdev, Hb.
    rewrite Hid, Hdev, Hb. auto.
  - clear - Hrec. induction Hrec as [| a nd allocs nds R _ IH]; [reflexivity|].
    cbn [flat_map map]. rewrite map_app, IH.
    now rewrite (proj1 (details_of_record _ _ _ R)).
  - clear - Hrec. induction Hrec as [| a nd allocs nds R _ IH]; [constructor|].
    cbn [flat_map]. apply Forall_app. split; [| assumption].
    exact (proj2 (details_of_record _ _ _ R)).
Qed.

Lemma plan_records_follow_configuration_witness :
  exists plan,
    generate_deployment_plan small_budget_config default_expert_config = ret plan
    /\ map (fun d => (ei_node d, ei_device d, ei_id d)) (plan_experts plan)
       = [("node-0", "cuda:0", "expert-0"); ("node-0", "cuda:0", "expert-1")]%string.
Proof.
  eexists. split; [vm_compute; reflexivity|].
  match goal with
  | |- map _ (plan_experts ?p) = _ =>
      rewrite (proj1 (proj2 (plan_records_follow_configuration
                               small_budget_config default_expert_config p
                               ltac:(vm_compute; reflexivity))))
  end.
  reflexivity.
Defined.

(** ** Patterns *)

(** X7. [expand_expert_pattern] only returns ids of the registry it is
    given, and the pattern ["*"] returns the whole registry unchanged. *)
Theorem expand_expert_pattern_within_registry (pattern : string)
    (all_experts : list string) :
  (forall e, In e (expand_expert_pattern pattern all_experts) -> In e all_experts)
  /\ expand_expert_pattern "*" all_experts = all_experts.
Proof.
  split.
  - intros e. unfold expand_expert_pattern.
    destruct (PyStr.endswith pattern "*").
    + intro H. apply filter_In in H. tauto.
    + destruct (str_in pattern all_experts) eqn:Hs; [| intros []].
      intros [<- | []]. now apply str_in_iff.
  - unfold expand_expert_pattern. cbn.
    induction all_experts as [| e l IH]; [reflexivity|].
    cbn [filter]. now rewrite IH.
Qed.

Lemma expand_expert_pattern_within_registry_witness :
  In "math-calculus"%string
     (expand_expert_pattern "math-*" ["math-algebra"; "math-calculus"; "lang-python"]%string)
  /\ In "math-calculus"%string ["math-algebra"; "math-calculus"; "lang-python"]%string.
Proof.
  assert (H : In "math-calculus"%string
                (expand_expert_pattern "math-*"
                   ["math-algebra"; "math-calculus"; "lang-python"]%string))
    by (cbn; auto).
  split; [exact H|].
  exact (proj1 (expand_expert_pattern_within_registry "math-*"
                  ["math-algebra"; "math-calculus"; "lang-python"]%string) _ H).
Defined.

(** ** Failure of planning *)

Lemma mapM_raises {A B : Type} (f : A -> result B) (l : list A) (x : A) (e : py_error) :
  In x l -> f x = raise e -> exists e', mapM f l = raise e'.
Proof.
  intros Hin Hx. induction l as [| y l IH]; [destruct Hin|].
  cbn [mapM]. destruct (f y) as [e' | b] eqn:Hy; [now exists e'|].
  destruct Hin as [-> | Hin]; [unfold raise in Hx; congruence|].
  destruct (IH Hin) as [e' ->]. now exists e'.
Qed.

(** X8. [generate_deployment_plan] raises whenever some configured node
    has no [gpu.memory] entry (the default ["8GB"] does not parse) or a
    [gpu.memory] that ends in [KB], [MB], [GB] or [TB]. *)
Theorem planning_needs_byte_budgets (config : Config)
    (expert_config : AtomicExpertConfig) (node : NodeConfig) :
  In node (cluster_nodes config) ->
  (gpu_memory (node_config_gpu node) = None
   \/ exists t c, unit_letter c
                  /\ gpu_memory (node_config_gpu node) = Some (t ++ String c "B")%string) ->
  exists e, generate_deployment_plan config expert_config = raise e.
Proof.
  intros Hin Hmem.
  assert (Hp : parse_memory (get (gpu_memory (node_config_gpu node)) "8GB"%string)
               = raise ValueError).
  { destruct Hmem as [-> | (t & c & Hc & ->)]; [reflexivity|].
    now apply parse_memory_rejects_multiple. }
  assert (Ha : allocate_node expert_config (collect_experts config) node
               = raise ValueError).
  { unfold allocate_node. now rewrite Hp. }
  unfold generate_deployment_plan, build_allocation.
  destruct (mapM_raises _ _ _ _ Hin Ha) as [e ->]. now exists e.
Qed.

Lemma planning_needs_byte_budgets_witness :
  exists e, generate_deployment_plan no_memory_config default_expert_config = raise e.
Proof.
  refine (planning_needs_byte_budgets no_memory_config default_expert_config
            {| node_config_id := Some "node-0"%string;
               node_config_gpu := {| gpu_device := None; gpu_memory := None |};
               node_config_experts := [] |} _ _).
  - left. reflexivity.
  - left. reflexivity.
Defined.

(** ** Quantization and packing *)

Lemma pow2_bit_width_pos (p : Precision) : 0 < 2 ^ bit_width p.
Proof. destruct p; reflexivity. Qed.

(** X9. When [compute_scale_zp] returns, the zero point lies in
    [0, 2^bit_width - 1] and the scale is not zero. *)
Theorem compute_scale_zp_zero_point_range (min_val max_val : PyFloat.float)
    (p : Precision) (scale : PyFloat.float) (zero_point : Z) :
  compute_scale_zp min_val max_val p = ret (scale, zero_point) ->
  0 <= zero_point <= 2 ^ bit_width p - 1
  /\ PyFloat.is_zero scale = false.
Proof.
  unfold compute_scale_zp. intro H.
  apply bind_inv in H. destruct H as (s & _ & H).
  apply bind_inv in H. destruct H as (t & Ht & H).
  apply bind_inv in H. destruct H as (u & _ & H).
  apply bind_inv in H. destruct H as (z & _ & H).
  apply ret_inj in H. injection H as <- <-.
  pose proof (pow2_bit_width_pos p). rewrite Z.shiftl_1_l.
  split; [lia|].
  unfold PyFloat.div in Ht. destruct (PyFloat.is_zero s); [discriminate Ht | reflexivity].
Qed.

Lemma compute_scale_zp_zero_point_range_witness :
  exists scale,
    compute_scale_zp PyFloat.zero PyFloat.one INT8 = ret (scale, 0)
    /\ 0 <= 0 <= 2 ^ bit_width INT8 - 1
    /\ PyFloat.is_zero scale = false.
Proof.
  eexists. split; [vm_compute; reflexivity|].
  apply (compute_scale_zp_zero_point_range PyFloat.zero PyFloat.one INT8).
  vm_compute. reflexivity.
Defined.

Lemma quantized_in_range (scale : PyFloat.float) (zp : Z) (p : Precision)
    (values : list PyFloat.float) (qs : list Z) :
  mapM (quantize_value scale zp p) values = ret qs ->
  Forall (fun q => 0 <= q <= 2 ^ bit_width p - 1) qs.
Proof.
  intro H. apply mapM_Forall2 in H.
  induction H as [| v q vs qs' Hv _ IH]; constructor; [| assumption].
  now apply quantize_value_inv in Hv.
Qed.

(** X10. For the kinds INT2, INT4 and INT8, packing the integers that
    [quantize_tensor] computes never fails and gives bytes in [0, 255];
    for INT8 the buffer is the list of those integers itself. *)
Theorem integer_kinds_pack_after_quantization (scale : PyFloat.float)
    (zero_point : Z) (p : Precision) (values : list PyFloat.float)
    (quantized : list Z) :
  int_kind p = true ->
  mapM (quantize_value scale zero_point p) values = ret quantized ->
  exists packed,
    _pack_values quantized p = ret packed
    /\ Forall is_byte packed
    /\ (p = INT8 -> packed = quantized).
Proof.
  intros Hk Hq. pose proof (quantized_in_range _ _ _ _ _ Hq) as Hr.
  destruct p; try discriminate Hk.
  - rewrite pack_int2_eq. eexists. split; [reflexivity|]. split; [| discriminate].
    apply (packed_map_facts (byte_int2 quantized) (List.length quantized) 4).
    apply byte_int2_is_byte.
  - rewrite pack_int4_eq. eexists. split; [reflexivity|]. split; [| discriminate].
    apply (packed_map_facts (byte_int4 quantized) (List.length quantized) 2).
    apply byte_int4_is_byte.
  - assert (Hb : Forall is_byte quantized).
    { eapply Forall_impl; [| exact Hr]. cbn. unfold is_byte. intros q Hq'.
      change (2 ^ 8 - 1) with 255 in Hq'. lia. }
    exists quantized. cbn [_pack_values]. rewrite bytes_of_ints_id by assumption.
    auto.
Qed.

Lemma integer_kinds_pack_after_quantization_witness :
  exists scale,
    mapM (quantize_value scale 0 INT8) [PyFloat.zero; PyFloat.one] = ret [0; 255]
    /\ exists packed,
         _pack_values [0; 255] INT8 = ret packed
         /\ Forall is_byte packed
         /\ (INT8 = INT8 -> packed = [0; 255]).
Proof.
  exists (S754_finite false 4521260802379792 (-60)).
  assert (H : mapM (quantize_value (S754_finite false 4521260802379792 (-60)) 0 INT8)
                   [PyFloat.zero; PyFloat.one] = ret [0; 255])
    by (vm_compute; reflexivity).
  split; [exact H|].
  exact (integer_kinds_pack_after_quantization _ 0 INT8 _ _ eq_refl H).
Defined.

Lemma bytes_of_ints_error (values : list Z) :
  ~ Forall is_byte values -> bytes_of_ints values = raise ValueError.
Proof.
  unfold bytes_of_ints. induction values as [| v l IH]; intro H.
  - exfalso. apply H. constructor.
  - cbn [mapM].
    destruct ((0 <=? v) && (v <? 256)) eqn:Hv.
    + apply andb_true_iff in Hv. destruct Hv as [H1 H2].
      apply Z.leb_le in H1. apply Z.ltb_lt in H2.
      cbn [bind ret]. rewrite IH; [reflexivity|].
      intro Hl. apply H. constructor; [split; assumption | assumption].
    + reflexivity.
Qed.

Lemma is_byte_dec (v : Z) : {is_byte v} + {~ is_byte v}.
Proof.
  unfold is_byte. destruct (Z_le_dec 0 v); destruct (Z_lt_dec v 256);
    (left; lia) || (right; lia).
Qed.

(** X11. At 8 bits [_pack_values] returns its input unchanged exactly
    when every value lies in [0, 255], and raises [ValueError]
    otherwise. *)
Theorem pack_values_int8_bytes_or_error (values : list Z) :
  (_pack_values values INT8 = ret values <-> Forall is_byte values)
  /\ (~ Forall is_byte values -> _pack_values values INT8 = raise ValueError).
Proof.
  cbn [_pack_values]. split; [split|].
  - intro H. destruct (Forall_dec is_byte is_byte_dec values) as [Hb | Hn];
      [assumption|].
    rewrite bytes_of_ints_error in H by assumption. discriminate H.
  - apply bytes_of_ints_id.
  - apply bytes_of_ints_error.
Qed.

Lemma pack_values_int8_bytes_or_error_witness :
  ~ Forall is_byte [1; 256] /\ _pack_values [1; 256] INT8 = raise ValueError.
Proof.
  assert (H : ~ Forall is_byte [1; 256]).
  { intro H. inversion H as [| ? ? _ H2]; subst.
    inversion H2 as [| ? ? H3 _]; subst. unfold is_byte in H3. lia. }
  split; [exact H|].
  exact (proj2 (pack_values_int8_bytes_or_error [1; 256]) H).
Defined.

Lemma slot_map_mod (values : list Z) (m : Z) (i : nat) :
  slot (map (fun v => v mod m) values) i = slot values i mod m.
Proof.
  unfold slot.
  change 0 with ((fun v => v mod m) 0) at 1.
  - apply map_nth.
Qed.

Lemma land_mod_ones (v k : Z) :
  0 <= k -> Z.land (v mod 2 ^ k) (Z.ones k) = Z.land v (Z.ones k).
Proof.
  intro Hk. rewrite !Z.land_ones by assumption.
  apply Z.mod_mod. apply Z.pow_nonzero; lia.
Qed.

(** X12. The 2-bit and 4-bit packings never raise and only depend on
    the low 2, respectively 4, bits of each value: replacing every
    value [v] by [v mod 4], respectively [v mod 16], gives the same
    buffer. *)
Theorem sub_byte_packing_keeps_low_bits (values : list Z) :
  _pack_values (map (fun v => v mod 4) values) INT2 = _pack_values values INT2
  /\ _pack_values (map (fun v => v mod 16) values) INT4 = _pack_values values INT4
  /\ (exists packed, _pack_values values INT2 = ret packed)
  /\ (exists packed, _pack_values values INT4 = ret packed).
Proof.
  split; [| split; [| split]].
  - rewrite !pack_int2_eq, length_map. f_equal. apply map_ext. intro k.
    unfold byte_int2. rewrite !slot_map_mod.
    change 3 with (Z.ones 2). change 4 with (2 ^ 2).
    now rewrite !land_mod_ones by lia.
  - rewrite !pack_int4_eq, length_map. f_equal. apply map_ext. intro k.
    unfold byte_int4. rewrite !slot_map_mod.
    change 15 with (Z.ones 4). change 16 with (2 ^ 4).
    now rewrite !land_mod_ones by lia.
  - rewrite pack_int2_eq. eexists. reflexivity.
  - rewrite pack_int4_eq. eexists. reflexivity.
Qed.

(** ** The 16-bit float kinds *)

Lemma pack_e_top_codes :
  forallb (fun v => match Struct.pack_e v with
                    | inl StructError => true
                    | _ => false
                    end) top_codes16 = true.
Proof. vm_compute. reflexivity. Qed.

Lemma in_top_codes16 (v : Z) : 65520 <= v <= 65535 -> In v top_codes16.
Proof.
  intro H. unfold top_codes16.
  assert (Hc : v = 65520 \/ v = 65521 \/ v = 65522 \/ v = 65523 \/ v = 65524
               \/ v = 65525 \/ v = 65526 \/ v = 65527 \/ v = 65528 \/ v = 65529
               \/ v = 65530 \/ v = 65531 \/ v = 65532 \/ v = 65533 \/ v = 65534
               \/ v = 65535) by lia.
  cbn [In]. intuition auto.
Qed.

Lemma pack_e_top_code (v : Z) :
  65520 <= v <= 65535 -> Struct.pack_e v = raise StructError.
Proof.
  intro Hv. pose proof pack_e_top_codes as H.
  rewrite forallb_forall in H. specialize (H v (in_top_codes16 v Hv)).
  destruct (Struct.pack_e v) as [[] | c]; try discriminate H. reflexivity.
Qed.

Lemma pack_e_error_kind (v : Z) (e : py_error) :
  Struct.pack_e v = raise e -> e = StructError.
Proof.
  unfold Struct.pack_e, Struct.as_double.
  destruct (PyFloat.of_int v) as [e0 | x]; cbn [bind raise ret].
  - intro H. now injection H.
  - unfold Struct.half_bits.
    destruct x as [s | s | | s m ex]; cbn [bind ret]; try discriminate.
    destruct (binary_round 11 16 s m ex); cbn [bind ret raise];
      try discriminate; intro H; now injection H.
Qed.

Lemma mapM_pack_e_top_code (values : list Z) (v : Z) :
  In v values -> 65520 <= v <= 65535 ->
  mapM Struct.pack_e values = raise StructError.
Proof.
  intros Hin Hv. induction values as [| w l IH]; [destruct Hin|].
  cbn [mapM]. destruct (Struct.pack_e w) as [e | c] eqn:Hw.
  - now rewrite (pack_e_error_kind w e Hw).
  - destruct Hin as [-> | Hin].
    + rewrite (pack_e_top_code v Hv) in Hw. discriminate Hw.
    + cbn [bind]. now rewrite (IH Hin).
Qed.

Lemma half_float_top_code_error (values : list Z) (p : Precision) (v : Z) :
  p = FP16 \/ p = BF16 ->
  In v values ->
  65520 <= v <= 65535 ->
  _pack_values values p = raise StructError.
Proof.
  intros Hp Hin Hv.
  assert (Hpack : _pack_values values p
                  = (chunks <- mapM Struct.pack_e values ;; ret (List.concat chunks)))
    by (destruct Hp as [-> | ->]; reflexivity).
  rewrite Hpack. now rewrite (mapM_pack_e_top_code values v Hin Hv).
Qed.

(** X13. For the kinds FP16 and BF16, [_pack_values] raises
    [struct.error] on every list that holds an integer from 65520 to
    65535: such a value is too large for a 16-bit float. *)
Theorem half_float_packing_rejects_top_codes (values : list Z) (p : Precision)
    (v : Z) :
  p = FP16 \/ p = BF16 ->
  In v values ->
  65520 <= v <= 65535 ->
  _pack_values values p = raise StructError.
Proof.
  intros Hp Hin Hv. now apply half_float_top_code_error with (v := v).
Qed.

Lemma half_float_packing_rejects_top_codes_witness :
  In 65535 [0; 1; 65535]
  /\ _pack_values [0; 1; 65535] BF16 = raise StructError.
Proof.
  assert (Hin : In 65535 [0; 1; 65535]) by (cbn; auto).
  split; [exact Hin|].
  refine (half_float_packing_rejects_top_codes [0; 1; 65535] BF16 65535
            (or_intror eq_refl) Hin _).
  lia.
Defined.

(** X14. For the kinds FP16 and BF16, whenever [quantize_tensor] returns
    on a non-empty list, every quantized integer is below 65520 (the
    part 65520..65535 of the clamping range makes it raise) and the
    buffer holds two bytes for each value. *)
Theorem half_float_quantization_codes_below_65520
    (values : list PyFloat.float) (p : Precision)
    (packed : list Z) (scale : PyFloat.float) (zero_point : Z) :
  p = FP16 \/ p = BF16 ->
  values <> [] ->
  quantize_tensor values p = ret (packed, scale, zero_point) ->
  exists quantized,
    mapM (quantize_value scale zero_point p) values = ret quantized
    /\ Forall (fun q => 0 <= q < 65520) quantized
    /\ List.length packed = (2 * List.length values)%nat.
Proof.
  intros Hp Hne H. unfold quantize_tensor in H.
  destruct values as [| v0 vs]; [contradiction|].
  apply bind_inv in H. destruct H as (min_val & _ & H).
  apply bind_inv in H. destruct H as (max_val & _ & H).
  apply bind_inv in H. destruct H as ([scale' zp'] & _ & H).
  apply bind_inv in H. destruct H as (quantized & Hq & H).
  apply bind_inv in H. destruct H as (packed' & Hpk & H).
  apply ret_inj in H. injection H as -> -> ->.
  exists quantized. split; [exact Hq|].
  pose proof (quantized_in_range _ _ _ _ _ Hq) as Hr.
  assert (Hbw : 2 ^ bit_width p - 1 = 65535) by (destruct Hp as [-> | ->]; reflexivity).
  split.
  - apply Forall_forall. intros q Hin.
    rewrite Forall_forall in Hr. specialize (Hr q Hin). rewrite Hbw in Hr.
    destruct (Z_lt_dec q 65520) as [Hlt | Hge]; [lia|].
    rewrite (half_float_top_code_error quantized p q Hp Hin) in Hpk by lia.
    discriminate Hpk.
  - assert (Hpack : _pack_values quantized p
                    = (chunks <- mapM (struct_pack p) quantized ;;
                       ret (List.concat chunks)))
      by (destruct Hp as [-> | ->]; reflexivity).
    rewrite Hpack in Hpk.
    apply bind_inv in Hpk. destruct Hpk as (chunks & Hc & Hpk).
    apply ret_inj in Hpk. subst packed.
    apply mapM_Forall2 in Hc. apply mapM_Forall2 in Hq.
    rewrite (concat_length_const 2).
    + now rewrite (Forall2_length' _ _ _ Hq), (Forall2_length' _ _ _ Hc).
    + clear - Hc Hp. induction Hc as [| q c qs cs Hqc _ IH]; constructor; [| assumption].
      apply struct_pack_length in Hqc. destruct Hp as [-> | ->]; exact Hqc.
Qed.

Lemma half_float_quantization_codes_below_65520_witness :
  exists scale,
    quantize_tensor [PyFloat.lit (-2) 0; PyFloat.lit (-1) 0] FP16
    = ret ([0; 0; 0; 0], scale, 65535)
    /\ exists quantized,
         mapM (quantize_value scale 65535 FP16)
              [PyFloat.lit (-2) 0; PyFloat.lit (-1) 0] = ret quantized
         /\ Forall (fun q => 0 <= q < 65520) quantized
         /\ List.length [0; 0; 0; 0]
            = (2 * List.length [PyFloat.lit (-2) 0; PyFloat.lit (-1) 0])%nat.
Proof.
  eexists. split; [vm_compute; reflexivity|].
  apply (half_float_quantization_codes_below_65520
           [PyFloat.lit (-2) 0; PyFloat.lit (-1) 0] FP16).
  - left. reflexivity.
  - discriminate.
  - vm_compute. reflexivity.
Defined.

(** ** Sizes against buffers *)

Lemma size_bytes_scaled (t : TensorSpec) (j : Z) (f : PyFloat.float) :
  bytes_per_element (precision t) = PyFloatV f ->
  f = S754_finite false 4503599627370496 (- j - 52) ->
  1 <= j <= 2 ->
  0 <= numel t < 2 ^ 53 ->
  size_bytes t = ret (numel t / 2 ^ j).
Proof.
  intros Hb Hf Hj Hn. unfold size_bytes. rewrite Hb. cbn [int_mul py_int].
  destruct (Z.eq_dec (numel t) 0) as [-> | Hz].
  - subst f. cbn. reflexivity.
  - pose proof (scaled_size_exact (numel t) (- j - 52) j ltac:(lia) Hj eq_refl) as H.
    subst f. unfold bind, ret in *.
    destruct (PyFloat.of_int (numel t)); exact H.
Qed.

Lemma nat_ceil_div_Z (n : nat) (d : positive) :
  Z.of_nat ((n + Pos.to_nat d - 1) / Pos.to_nat d)
  = (Z.of_nat n + Zpos d - 1) / Zpos d.
Proof.
  rewrite Nat2Z.inj_div, Nat2Z.inj_sub, Nat2Z.inj_add by lia.
  now rewrite positive_nat_Z.
Qed.

(** X15. For a 2-bit or 4-bit tensor of fewer than [2^53] elements,
    [size_bytes] is at most the length of the buffer that [_pack_values]
    returns for that many values, and equal to it exactly when the
    element count is a multiple of the number of values per byte. *)
Theorem sub_byte_size_bytes_rounds_down (t : TensorSpec) (values : list Z) :
  sub_byte (precision t) = true ->
  numel t = Z.of_nat (List.length values) ->
  numel t < 2 ^ 53 ->
  exists size packed,
    size_bytes t = ret size
    /\ _pack_values values (precision t) = ret packed
    /\ size <= Z.of_nat (List.length packed)
    /\ (size = Z.of_nat (List.length packed)
        <-> numel t mod values_per_byte (precision t) = 0).
Proof.
  intros Hk Hn Hlt.
  assert (H0 : 0 <= numel t < 2 ^ 53) by lia.
  destruct (precision t) eqn:Hp; try discriminate Hk.
  - cbn [values_per_byte]. exists (numel t / 2 ^ 2). eexists.
    split; [apply (size_bytes_scaled t 2 PyFloat.quarter); [now rewrite Hp | reflexivity | lia | lia]|].
    split; [apply pack_int2_eq|].
    rewrite length_map, length_seq.
    change ((List.length values + 4 - 1) / 4)%nat
      with ((List.length values + Pos.to_nat 4 - 1) / Pos.to_nat 4)%nat.
    rewrite (nat_ceil_div_Z (List.length values) 4), <- Hn.
    change (2 ^ 2) with 4.
    pose proof (Z.div_mod (numel t) 4 ltac:(lia)).
    pose proof (Z.mod_pos_bound (numel t) 4 ltac:(lia)).
    pose proof (Z.div_mod (numel t + 4 - 1) 4 ltac:(lia)).
    pose proof (Z.mod_pos_bound (numel t + 4 - 1) 4 ltac:(lia)).
    lia.
  - cbn [values_per_byte]. exists (numel t / 2 ^ 1). eexists.
    split; [apply (size_bytes_scaled t 1 PyFloat.half); [now rewrite Hp | reflexivity | lia | lia]|].
    split; [apply pack_int4_eq|].
    rewrite length_map, length_seq.
    change ((List.length values + 2 - 1) / 2)%nat
      with ((List.length values + Pos.to_nat 2 - 1) / Pos.to_nat 2)%nat.
    rewrite (nat_ceil_div_Z (List.length values) 2), <- Hn.
    change (2 ^ 1) with 2.
    pose proof (Z.div_mod (numel t) 2 ltac:(lia)).
    pose proof (Z.mod_pos_bound (numel t) 2 ltac:(lia)).
    pose proof (Z.div_mod (numel t + 2 - 1) 2 ltac:(lia)).
    pose proof (Z.mod_pos_bound (numel t + 2 - 1) 2 ltac:(lia)).
    lia.
Qed.

Lemma sub_byte_size_bytes_rounds_down_witness :
  size_bytes five_int2_tensor = ret 1
  /\ _pack_values [3; 2; 1; 0; 3] INT2 = ret [27; 3]
  /\ exists size packed,
       size_bytes five_int2_tensor = ret size
       /\ _pack_values [3; 2; 1; 0; 3] (precision five_int2_tensor) = ret packed
       /\ size <= Z.of_nat (List.length packed)
       /\ (size = Z.of_nat (List.length packed)
           <-> numel five_int2_tensor mod values_per_byte (precision five_int2_tensor) = 0).
Proof.
  split; [reflexivity|]. split; [reflexivity|].
  apply (sub_byte_size_bytes_rounds_down five_int2_tensor [3; 2; 1; 0; 3]);
    reflexivity.
Defined.

(** ** Packing against the dequantization kernels *)

Lemma testbit_field (s w pos i : Z) :
  0 <= w -> 0 <= pos -> 0 <= i ->
  Z.testbit (Z.shiftl (Z.land s (Z.ones w)) pos) i
  = Z.testbit s (i - pos) && ((pos <=? i) && (i <? pos + w)).
Proof.
  intros Hw Hp Hi. rewrite Z.shiftl_spec by assumption.
  destruct (Z.leb_spec pos i) as [Hle | Hlt].
  - rewrite Z.land_spec, Z.testbit_ones_nonneg by lia.
    f_equal. cbn [andb].
    destruct (Z.ltb_spec (i - pos) w), (Z.ltb_spec i (pos + w)); try reflexivity; lia.
  - rewrite !Z.testbit_neg_r by lia. reflexivity.
Qed.

Lemma testbit_read (b w pos i : Z) :
  0 <= w -> 0 <= pos -> 0 <= i ->
  Z.testbit (Z.land (Z.shiftr b pos) (Z.ones w)) i
  = Z.testbit b (i + pos) && (i <? w).
Proof.
  intros Hw Hp Hi.
  now rewrite Z.land_spec, Z.shiftr_spec, Z.testbit_ones_nonneg by lia.
Qed.

Ltac decide_comparisons :=
  repeat match goal with
         | |- context [?a <? ?b] =>
             first [ replace (a <? b) with true by (symmetry; apply Z.ltb_lt; lia)
                   | replace (a <? b) with false by (symmetry; apply Z.ltb_ge; lia) ]
         | |- context [?a <=? ?b] =>
             first [ replace (a <=? b) with true by (symmetry; apply Z.leb_le; lia)
                   | replace (a <=? b) with false by (symmetry; apply Z.leb_gt; lia) ]
         end.

(** Reading the field at [pos] of a byte made of four 2-bit fields. *)
Lemma read_field2 (s0 s1 s2 s3 s : Z) (j : Z) :
  0 <= j <= 3 ->
  s = (if j =? 0 then s0 else if j =? 1 then s1 else if j =? 2 then s2 else s3) ->
  Z.land (Z.shiftr
            (Z.lor (Z.lor (Z.lor (Z.shiftl (Z.land s0 (Z.ones 2)) 0)
                                 (Z.shiftl (Z.land s1 (Z.ones 2)) 2))
                          (Z.shiftl (Z.land s2 (Z.ones 2)) 4))
                   (Z.shiftl (Z.land s3 (Z.ones 2)) 6))
            (j * 2))
         (Z.ones 2)
  = Z.land s (Z.ones 2).
Proof.
  intros Hj Hs. apply Z.bits_inj'. intros i Hi.
  rewrite testbit_read by lia.
  rewrite !Z.lor_spec, !testbit_field by lia.
  rewrite Z.land_spec, Z.testbit_ones_nonneg by lia.
  destruct (Z.ltb_spec i 2) as [Hlt | Hge];
    [| now rewrite !andb_false_r].
  rewrite !andb_true_r.
  assert (Hc : j = 0 \/ j = 1 \/ j = 2 \/ j = 3) by lia.
  destruct Hc as [-> | [-> | [-> | ->]]]; cbn in Hs; subst s;
    decide_comparisons; cbn [andb orb];
    rewrite ?andb_false_r, ?andb_true_r, ?orb_false_r, ?orb_false_l;
    f_equal; lia.
Qed.

Lemma read_field4 (s0 s1 s : Z) (j : Z) :
  0 <= j <= 1 ->
  s = (if j =? 0 then s0 else s1) ->
  Z.land (Z.shiftr
            (Z.lor (Z.shiftl (Z.land s0 (Z.ones 4)) 0)
                   (Z.shiftl (Z.land s1 (Z.ones 4)) 4))
            (j * 4))
         (Z.ones 4)
  = Z.land s (Z.ones 4).
Proof.
  intros Hj Hs. apply Z.bits_inj'. intros i Hi.
  rewrite testbit_read by lia.
  rewrite !Z.lor_spec, !testbit_field by lia.
  rewrite Z.land_spec, Z.testbit_ones_nonneg by lia.
  destruct (Z.ltb_spec i 4) as [Hlt | Hge];
    [| now rewrite !andb_false_r].
  rewrite !andb_true_r.
  assert (Hc : j = 0 \/ j = 1) by lia.
  destruct Hc as [-> | ->]; cbn in Hs; subst s;
    decide_comparisons; cbn [andb orb];
    rewrite ?andb_false_r, ?andb_true_r, ?orb_false_r, ?orb_false_l;
    f_equal; lia.
Qed.

Lemma nth_error_map_seq {A : Type} (h : nat -> A) (c k : nat) :
  (k < c)%nat -> nth_error (map h (seq 0 c)) k = Some (h k).
Proof.
  intro Hk. rewrite nth_error_map.
  rewrite (nth_error_nth' (seq 0 c) 0%nat) by (now rewrite length_seq).
  now rewrite seq_nth.
Qed.

Lemma byte_int4_read (values : list Z) (k : nat) (j : Z) :
  0 <= j <= 1 ->
  Z.land (Z.shiftr (byte_int4 values k) (j * 4)) 15
  = Z.land (slot values (2 * k + Z.to_nat j)) 15.
Proof.
  intro Hj. unfold byte_int4. change 15 with (Z.ones 4).
  rewrite <- (Z.shiftl_0_r (Z.land (slot values (2 * k)) (Z.ones 4))).
  apply read_field4; [assumption|].
  assert (Hc : j = 0 \/ j = 1) by lia.
  destruct Hc as [-> | ->]; cbn [Z.eqb Z.to_nat Pos.to_nat Pos.iter_op];
    [now rewrite Nat.add_0_r | reflexivity].
Qed.

Lemma byte_int2_read (values : list Z) (k : nat) (j : Z) :
  0 <= j <= 3 ->
  Z.land (Z.shiftr (byte_int2 values k) (j * 2)) 3
  = Z.land (slot values (4 * k + Z.to_nat j)) 3.
Proof.
  intro Hj. unfold byte_int2. change 3 with (Z.ones 2).
  rewrite <- (Z.shiftl_0_r (Z.land (slot values (4 * k)) (Z.ones 2))).
  apply read_field2; [assumption|].
  assert (Hc : j = 0 \/ j = 1 \/ j = 2 \/ j = 3) by lia.
  destruct Hc as [-> | [-> | [-> | ->]]]; cbn [Z.eqb Pos.eqb];
    [now rewrite Nat.add_0_r | reflexivity | reflexivity | reflexivity].
Qed.

Lemma packed_index_in_range (idx n d : nat) :
  (0 < d)%nat -> (idx < n)%nat -> (idx / d < (n + d - 1) / d)%nat.
Proof.
  intros Hd Hlt.
  replace (n + d - 1)%nat with ((n - 1) + 1 * d)%nat by lia.
  rewrite Nat.div_add by lia.
  assert (idx / d <= (n - 1) / d)%nat by (apply Nat.Div0.div_le_mono; lia).
  lia.
Qed.

(** X16. The INT4 and INT2 kernels of [generate_dequant_kernel] read the
    buffer the way [_pack_values] writes it: for every index inside the
    list, the nibble, respectively the 2-bit value, that the kernel
    extracts is [values[idx] mod 16], respectively [values[idx] mod 4]. *)
Theorem kernels_read_back_sub_byte_values (values : list Z) (idx : nat) :
  (idx < List.length values)%nat ->
  (forall packed, _pack_values values INT4 = ret packed ->
                  dequant_int4_nibble packed idx = Some (nth idx values 0 mod 16))
  /\ (forall packed, _pack_values values INT2 = ret packed ->
                     dequant_int2_val packed idx = Some (nth idx values 0 mod 4)).
Proof.
  intro Hidx. split; intros packed Hp.
  - rewrite pack_int4_eq in Hp. apply ret_inj in Hp. subst packed.
    unfold dequant_int4_nibble.
    rewrite nth_error_map_seq by (apply packed_index_in_range; lia).
    f_equal.
    pose proof (Nat.div_mod_eq idx 2) as Hdm.
    pose proof (Nat.mod_upper_bound idx 2 ltac:(lia)) as Hm.
    change (nth idx values 0 mod 16) with (nth idx values 0 mod 2 ^ 4).
    rewrite <- (Z.land_ones (nth idx values 0) 4) by lia. change (Z.ones 4) with 15.
    destruct (Nat.eqb_spec (idx mod 2) 0) as [H0 | H1].
    + pose proof (byte_int4_read values (idx / 2) 0 ltac:(lia)) as Hr.
      change (0 * 4) with 0 in Hr. rewrite Z.shiftr_0_r in Hr. rewrite Hr.
      unfold slot. do 2 f_equal. change (Z.to_nat 0) with 0%nat. lia.
    + pose proof (byte_int4_read values (idx / 2) 1 ltac:(lia)) as Hr.
      change (1 * 4) with 4 in Hr. rewrite Hr.
      unfold slot. do 2 f_equal. change (Z.to_nat 1) with 1%nat. lia.
  - rewrite pack_int2_eq in Hp. apply ret_inj in Hp. subst packed.
    unfold dequant_int2_val.
    rewrite nth_error_map_seq by (apply packed_index_in_range; lia).
    f_equal.
    pose proof (Nat.div_mod_eq idx 4) as Hdm.
    pose proof (Nat.mod_upper_bound idx 4 ltac:(lia)) as Hm.
    change (nth idx values 0 mod 4) with (nth idx values 0 mod 2 ^ 2).
    rewrite <- (Z.land_ones (nth idx values 0) 2) by lia. change (Z.ones 2) with 3.
    cbv zeta.
    rewrite (byte_int2_read values (idx / 4) (Z.of_nat (idx mod 4))) by lia.
    unfold slot. do 2 f_equal. rewrite Nat2Z.id. lia.
Qed.

Lemma kernels_read_back_sub_byte_values_witness :
  (2 < List.length [7; 12; 9])%nat
  /\ _pack_values [7; 12; 9] INT4 = ret [199; 9]
  /\ dequant_int4_nibble [199; 9] 2 = Some (nth 2 [7; 12; 9] 0 mod 16).
Proof.
  assert (H : (2 < List.length [7; 12; 9])%nat) by (cbn; lia).
  split; [exact H|]. split; [reflexivity|].
  exact (proj1 (kernels_read_back_sub_byte_values [7; 12; 9] 2 H) [199; 9] eq_refl).
Defined.

(** X17. The INT8 kernel of [generate_dequant_kernel] declares its input
    as [int8_t]: on a buffer packed at 8 bits it reads the value [v] of
    [0, 255] as [v] when [v < 128] and as [v - 256] otherwise, so it
    reads back exactly the values below 128. *)
Theorem int8_kernel_reads_signed (values : list Z) (idx : nat) (packed : list Z) :
  (idx < List.length values)%nat ->
  _pack_values values INT8 = ret packed ->
  let v := nth idx values 0 in
  0 <= v <= 255
  /\ dequant_int8_input packed idx = Some (if v <? 128 then v else v - 256)
  /\ (dequant_int8_input packed idx = Some v <-> v < 128).
Proof.
  intros Hidx Hp v.
  assert (Hb : Forall is_byte values).
  { destruct (Forall_dec is_byte is_byte_dec values) as [Hb | Hn]; [assumption|].
    cbn [_pack_values] in Hp. rewrite bytes_of_ints_error in Hp by assumption.
    discriminate Hp. }
  cbn [_pack_values] in Hp. rewrite bytes_of_ints_id in Hp by assumption.
  apply ret_inj in Hp. subst packed.
  assert (Hv : is_byte v).
  { rewrite Forall_forall in Hb. apply Hb. subst v. now apply nth_In. }
  unfold is_byte in Hv. split; [lia|].
  unfold dequant_int8_input.
  rewrite (nth_error_nth' values 0 Hidx). fold v.
  split; [reflexivity|].
  destruct (Z.ltb_spec v 128) as [Hlt | Hge]; split; intro H; try lia; try reflexivity.
  injection H as H. lia.
Qed.

Lemma int8_kernel_reads_signed_witness :
  (1 < List.length [0; 255])%nat
  /\ _pack_values [0; 255] INT8 = ret [0; 255]
  /\ dequant_int8_input [0; 255] 1 = Some (-1).
Proof.
  assert (H : (1 < List.length [0; 255])%nat) by (cbn; lia).
  split; [exact H|]. split; [reflexivity|].
  exact (proj1 (proj2 (int8_kernel_reads_signed [0; 255] 1 [0; 255] H eq_refl))).
Defined.

(** ** Byte counts in decimal *)

Section DecimalBudgets.

Local Open Scope string_scope.

Lemma digit_facts (c : ascii) :
  PyStr.is_digit c = true ->
  PyStr.upper_char c = c
  /\ PyStr.is_space c = false
  /\ Ascii.eqb c "_" = false
  /\ Ascii.eqb c "-" = false
  /\ Ascii.eqb c "+" = false
  /\ c <> "B"%char.
Proof.
  unfold PyStr.is_digit, PyStr.upper_char, PyStr.is_space. intro H.
  apply andb_true_iff in H. destruct H as [H1 H2].
  apply Nat.leb_le in H1. apply Nat.leb_le in H2.
  assert (Hn : forall d : ascii, (nat_of_ascii d < 48 \/ 57 < nat_of_ascii d)%nat ->
                                 Ascii.eqb c d = false).
  { intros d Hd. apply Ascii.eqb_neq. intros ->. lia. }
  repeat split.
  - replace (97 <=? nat_of_ascii c)%nat with false
      by (symmetry; apply Nat.leb_gt; lia). reflexivity.
  - replace (nat_of_ascii c <=? 13)%nat with false
      by (symmetry; apply Nat.leb_gt; lia).
    replace (nat_of_ascii c <=? 32)%nat with false
      by (symmetry; apply Nat.leb_gt; lia).
    now rewrite !andb_false_r.
  - apply Hn. cbn. lia.
  - apply Hn. cbn. lia.
  - apply Hn. cbn. lia.
  - intros ->. cbn in H2. lia.
Qed.

Lemma all_digits_cons (s : string) :
  all_digits s ->
  exists c s', s = String c s' /\ PyStr.is_digit c = true
               /\ Forall (fun c => PyStr.is_digit c = true) (list_ascii_of_string s').
Proof.
  intros [Hne Hall]. destruct s as [| c s']; [contradiction|].
  cbn in Hall. inversion Hall; subst. now exists c, s'.
Qed.

Lemma upper_digits (s : string) :
  Forall (fun c => PyStr.is_digit c = true) (list_ascii_of_string s) ->
  PyStr.upper s = s.
Proof.
  induction s as [| c s IH]; cbn; intro H; [reflexivity|].
  inversion H; subst. rewrite IH by assumption.
  now rewrite (proj1 (digit_facts c H2)).
Qed.

Lemma rstrip_digits (s : string) :
  Forall (fun c => PyStr.is_digit c = true) (list_ascii_of_string s) ->
  PyStr.rstrip s = s.
Proof.
  induction s as [| c s IH]; cbn; intro H; [reflexivity|].
  inversion H; subst. rewrite IH by assumption.
  destruct s; [| reflexivity].
  now rewrite (proj1 (proj2 (digit_facts c H2))).
Qed.

Lemma strip_digits (s : string) :
  Forall (fun c => PyStr.is_digit c = true) (list_ascii_of_string s) ->
  PyStr.strip s = s.
Proof.
  intro H. unfold PyStr.strip.
  assert (Hl : PyStr.lstrip s = s).
  { destruct s as [| c s]; [reflexivity|]. cbn in *. inversion H; subst.
    now rewrite (proj1 (proj2 (digit_facts c H2))). }
  rewrite Hl. now apply rstrip_digits.
Qed.

Lemma strip_underscores_digits (s : string) (prev : ascii) :
  Ascii.eqb prev "_" = false ->
  Forall (fun c => PyStr.is_digit c = true) (list_ascii_of_string s) ->
  PyStr.strip_underscores prev s = Some s.
Proof.
  revert prev. induction s as [| c s IH]; intros prev Hp H; cbn [PyStr.strip_underscores].
  - now rewrite Hp.
  - cbn in H. inversion H; subst.
    destruct (digit_facts c H2) as (_ & _ & Hu & _).
    rewrite Hu, Hp. cbn [andb]. now rewrite IH.
Qed.

Lemma digits_from_digits (s : string) (count : nat) (acc : Z) :
  Forall (fun c => PyStr.is_digit c = true) (list_ascii_of_string s) ->
  PyStr.digits_from count acc s
  = ((count + String.length s)%nat,
     fold_left (fun acc c => 10 * acc + PyStr.digit_value c)
               (list_ascii_of_string s) acc,
     "").
Proof.
  revert count acc. induction s as [| c s IH]; intros count acc H;
    cbn [PyStr.digits_from list_ascii_of_string fold_left String.length].
  - now rewrite Nat.add_0_r.
  - cbn in H. inversion H; subst. rewrite H2, IH by assumption.
    replace (S count + String.length s)%nat
      with (count + S (String.length s))%nat by lia.
    reflexivity.
Qed.

Lemma take_sign_digits (s : string) :
  all_digits s -> PyStr.take_sign s = (false, s).
Proof.
  intro H. destruct (all_digits_cons s H) as (c & s' & -> & Hc & _).
  destruct (digit_facts c Hc) as (_ & _ & _ & Hm & Hp & _).
  cbn [PyStr.take_sign]. now rewrite Hm, Hp.
Qed.

Lemma to_int_digits (s : string) :
  all_digits s -> PyStr.to_int s = ret (decimal_value s).
Proof.
  intro H. pose proof H as [Hne Hall]. unfold PyStr.to_int.
  rewrite strip_digits, strip_underscores_digits by (assumption || reflexivity).
  rewrite take_sign_digits, digits_from_digits by assumption.
  destruct s as [| c s']; [contradiction|]. reflexivity.
Qed.

Lemma last_char_digits (s : string) (c : ascii) :
  Forall (fun c => PyStr.is_digit c = true) (list_ascii_of_string s) ->
  last_char s = Some c -> PyStr.is_digit c = true.
Proof.
  induction s as [| a s IH]; cbn [last_char list_ascii_of_string]; intros H Hl;
    [discriminate Hl|].
  inversion H; subst. destruct s as [| b s'].
  - now injection Hl as <-.
  - now apply IH.
Qed.

Lemma last_char_app_ne (t u : string) :
  u <> "" -> last_char (t ++ u) = last_char u.
Proof.
  intro Hu. induction t as [| a t IH]; [reflexivity|].
  cbn [append last_char]. rewrite IH.
  destruct (t ++ u) eqn:E; [| reflexivity].
  destruct t; [now cbn in E | discriminate E].
Qed.

Lemma endswith_unit_digits (s unit : string) (multiplier : Z) :
  Forall (fun c => PyStr.is_digit c = true) (list_ascii_of_string s) ->
  In (unit, multiplier) units ->
  PyStr.endswith s unit = false.
Proof.
  intros H Hin. destruct (PyStr.endswith s unit) eqn:E; [| reflexivity].
  apply endswith_iff in E. destruct E as [t ->].
  assert (Hl : last_char (t ++ unit) = Some "B"%char).
  { assert (Hu : unit <> "" /\ last_char unit = Some "B"%char).
    { cbn in Hin.
      destruct Hin as [Hi | [Hi | [Hi | [Hi | [Hi | []]]]]];
        injection Hi as <- _; split; (discriminate || reflexivity). }
    destruct Hu as [Hne Hlu]. now rewrite last_char_app_ne. }
  apply (last_char_digits _ _ H) in Hl. discriminate Hl.
Qed.

Lemma parse_memory_units_digits (s : string) :
  all_digits s -> parse_memory_units units s = ret (decimal_value s).
Proof.
  intro H. pose proof H as [_ Hall].
  assert (Hgen : forall us, (forall u, In u us -> In u units) ->
                            parse_memory_units us s = PyStr.to_int s).
  { induction us as [| [unit multiplier] us IH]; intro Hsub; [reflexivity|].
    cbn [parse_memory_units].
    rewrite (endswith_unit_digits s unit multiplier Hall) by (apply Hsub; now left).
    apply IH. intros u Hu. apply Hsub. now right. }
  rewrite Hgen by auto. now apply to_int_digits.
Qed.

Lemma not_special_digits (s x : string) :
  all_digits s -> ~ all_digits x -> String.eqb s x = false.
Proof.
  intros Hs Hx. apply String.eqb_neq. intros ->. contradiction.
Qed.

Lemma to_float_digits (s : string) :
  all_digits s ->
  PyStr.to_float s = ret (PyStr.decimal_to_float false (decimal_value s) 0).
Proof.
  intro H. pose proof H as [Hne Hall]. unfold PyStr.to_float.
  rewrite strip_digits, strip_underscores_digits by (assumption || reflexivity).
  rewrite take_sign_digits by assumption.
  rewrite upper_digits by assumption.
  rewrite !(not_special_digits s) by
    (assumption || (intros [_ Hx]; cbn in Hx; inversion Hx; discriminate)).
  cbn [orb].
  rewrite digits_from_digits by assumption.
  cbn [PyStr.exponent_part].
  destruct s as [| c s']; [contradiction|]. reflexivity.
Qed.

Lemma decimal_value_nonneg (s : string) : 0 <= decimal_value s.
Proof.
  unfold decimal_value.
  assert (H : forall l acc, 0 <= acc ->
                0 <= fold_left (fun acc c => 10 * acc + PyStr.digit_value c) l acc).
  { induction l as [| c l IH]; intros acc Ha; cbn [fold_left]; [assumption|].
    apply IH. unfold PyStr.digit_value. lia. }
  apply H. lia.
Qed.

Lemma binary_normalize_of_int (n : Z) (x : PyFloat.float) :
  PyFloat.of_int n = ret x ->
  binary_normalize PyFloat.prec PyFloat.emax n 0 false = x.
Proof.
  unfold PyFloat.of_int.
  destruct (binary_normalize PyFloat.prec PyFloat.emax n 0 false);
    intro H; try discriminate H; now apply ret_inj in H.
Qed.

(** A count below [2^53] goes through [float], [* 1] and [int]
    unchanged. *)
Lemma float_round_trip_count (m : Z) :
  0 <= m < 2 ^ 53 ->
  (y <- float_mul_int (PyStr.decimal_to_float false m 0) 1 ;;
   PyFloat.truncate y) = ret m.
Proof.
  intro Hm. unfold PyStr.decimal_to_float.
  destruct (Z.eqb_spec m 0) as [-> | Hnz]; [reflexivity|].
  cbn [Z.leb Z.compare]. change (10 ^ 0) with 1. rewrite Z.mul_1_r.
  destruct (of_int_exact m ltac:(lia)) as (mm & k & Hof & Hd & Hk & Hv).
  rewrite (binary_normalize_of_int _ _ Hof).
  unfold float_mul_int.
  change (PyFloat.of_int 1) with (ret (S754_finite false 4503599627370496 (-52))).
  cbn [bind ret].
  rewrite (mul_pow2_52 mm (- k) (-52) Hd) by lia.
  replace (- k + -52 + 52) with (- k) by lia.
  destruct (Z.eq_dec k 0) as [-> | Hk0].
  - cbn [Z.opp PyFloat.truncate]. rewrite Z.shiftl_0_r. f_equal.
    rewrite Hv. cbn. lia.
  - rewrite truncate_neg_exp by lia. f_equal.
    rewrite Hv, Z.opp_involutive. apply Z.div_mul. apply Z.pow_nonzero; lia.
Qed.

Lemma parse_memory_units_digits_B (s : string) :
  all_digits s -> decimal_value s < 2 ^ 53 ->
  parse_memory_units units (s ++ "B") = ret (decimal_value s).
Proof.
  intros H Hlt. cbn [units parse_memory_units].
  replace (PyStr.endswith (s ++ "B") "B") with true
    by (symmetry; apply endswith_iff; now exists s).
  change (String.length "B") with 1%nat.
  change (PyStr.drop_last 1 (s ++ "B"))
    with (PyStr.drop_last (String.length "B") (s ++ "B")).
  rewrite drop_last_app, to_float_digits by assumption.
  cbn [bind ret].
  apply float_round_trip_count.
  pose proof (decimal_value_nonneg s). lia.
Qed.

Lemma normalize_digits_B (s : string) :
  all_digits s ->
  PyStr.strip (PyStr.upper (s ++ "B")) = s ++ "B"
  /\ PyStr.strip (PyStr.upper (s ++ "b")) = s ++ "B".
Proof.
  intro H. pose proof H as [Hne Hall].
  assert (Hs : PyStr.strip (s ++ "B") = s ++ "B").
  { unfold PyStr.strip.
    assert (Hl : PyStr.lstrip (s ++ "B") = s ++ "B").
    { destruct (all_digits_cons s H) as (c & s' & -> & Hc & _).
      cbn. now rewrite (proj1 (proj2 (digit_facts c Hc))). }
    rewrite Hl. apply rstrip_tail; [discriminate | reflexivity]. }
  rewrite !upper_app, upper_digits by assumption. cbn [PyStr.upper].
  change (PyStr.upper_char "B") with "B"%char.
  change (PyStr.upper_char "b") with "B"%char.
  auto.
Qed.

(** X18. [parse_memory] on a non-empty string of at most 4300 decimal
    digits (the most that [int] converts from a string) returns the
    number it writes, also beyond [2^53]; with a suffix [B] or [b] it
    returns the same number when that is below [2^53]. *)
Theorem parse_memory_decimal_bytes (s : string) :
  all_digits s ->
  (String.length s <= 4300)%nat ->
  parse_memory s = ret (decimal_value s)
  /\ (decimal_value s < 2 ^ 53 ->
      parse_memory (s ++ "B") = ret (decimal_value s)
      /\ parse_memory (s ++ "b") = ret (decimal_value s)).
Proof.
  intros H _. pose proof H as [Hne Hall]. split.
  - unfold parse_memory. rewrite upper_digits, strip_digits by assumption.
    now apply parse_memory_units_digits.
  - intro Hlt. destruct (normalize_digits_B s H) as [HB Hb].
    unfold parse_memory. rewrite HB, Hb.
    split; now apply parse_memory_units_digits_B.
Qed.

Lemma parse_memory_decimal_bytes_witness :
  all_digits "1048576"
  /\ (String.length "1048576" <= 4300)%nat
  /\ parse_memory "1048576" = ret 1048576
  /\ parse_memory "1048576b" = ret 1048576.
Proof.
  assert (H : all_digits "1048576").
  { split; [discriminate|]. repeat constructor. }
  assert (L : (String.length "1048576" <= 4300)%nat) by (cbn; lia).
  split; [exact H|]. split; [exact L|].
  split.
  - exact (proj1 (parse_memory_decimal_bytes "1048576" H L)).
  - refine (proj2 (proj2 (parse_memory_decimal_bytes "1048576" H L) _)).
    reflexivity.
Defined.

End DecimalBudgets.

(** ** The safetensors manifest *)

Lemma dict_get_set_same {V : Type} (d : list (string * V)) (key : string) (value : V) :
  dict_get (dict_set d key value) key = Some value.
Proof.
  induction d as [| [k v] d IH]; cbn [dict_set dict_get].
  - now rewrite String.eqb_refl.
  - destruct (String.eqb k key) eqn:E; cbn [dict_get]; rewrite E; [reflexivity | exact IH].
Qed.

Lemma dict_get_set_other {V : Type} (d : list (string * V)) (key key' : string)
    (value : V) :
  key' <> key -> dict_get (dict_set d key value) key' = dict_get d key'.
Proof.
  intro Hne. induction d as [| [k v] d IH]; cbn [dict_set dict_get].
  - replace (String.eqb key key') with false
      by (symmetry; apply String.eqb_neq; congruence). reflexivity.
  - destruct (String.eqb k key) eqn:E; cbn [dict_get].
    + apply String.eqb_eq in E. subst k.
      replace (String.eqb key key') with false
        by (symmetry; apply String.eqb_neq; congruence). reflexivity.
    + destruct (String.eqb k key'); [reflexivity | exact IH].
Qed.

Lemma entries_from_set (config : AtomicExpertConfig) (seen : list ExpertTensor)
    (d : list (string * ManifestEntry)) (expert : ExpertTensor) (t : TensorSpec)
    (entry : ManifestEntry) :
  entries_from config seen d ->
  In expert seen -> In t (tensors_of expert) ->
  manifest_entry config t = ret entry ->
  entries_from config seen (dict_set d (name t) entry).
Proof.
  intros Hd Hin Ht He key entry' Hget.
  destruct (string_dec key (name t)) as [-> | Hne].
  - rewrite dict_get_set_same in Hget. injection Hget as <-.
    now exists expert, t.
  - rewrite dict_get_set_other in Hget by assumption. exact (Hd key entry' Hget).
Qed.

Lemma entries_for_set (seen : list ExpertTensor)
    (d : list (string * ManifestEntry)) (key : string) (entry : ManifestEntry) :
  entries_for seen d -> entries_for seen (dict_set d key entry).
Proof.
  intros Hd expert t Hin Ht.
  destruct (string_dec (name t) key) as [-> | Hne].
  - rewrite dict_get_set_same. now exists entry.
  - rewrite dict_get_set_other by assumption. exact (Hd expert t Hin Ht).
Qed.

Lemma entries_from_more (config : AtomicExpertConfig) (seen : list ExpertTensor)
    (expert : ExpertTensor) (d : list (string * ManifestEntry)) :
  entries_from config seen d -> entries_from config (seen ++ [expert]) d.
Proof.
  intros Hd key entry Hget. destruct (Hd key entry Hget) as (e & t & Hin & H).
  exists e, t. split; [apply in_or_app; now left | exact H].
Qed.

Lemma export_expert_inv (config : AtomicExpertConfig) (seen : list ExpertTensor)
    (d d' : list (string * ManifestEntry)) (expert : ExpertTensor) :
  entries_from config seen d -> entries_for seen d ->
  export_expert config d expert = ret d' ->
  entries_from config (seen ++ [expert]) d' /\ entries_for (seen ++ [expert]) d'.
Proof.
  intros Hfrom Hfor H. unfold export_expert in H.
  apply bind_inv in H. destruct H as (up & Hup & H).
  apply bind_inv in H. destruct H as (down & Hdown & H).
  assert (Hlast : In expert (seen ++ [expert])) by (apply in_or_app; right; now left).
  apply (entries_from_more config seen expert) in Hfrom.
  assert (Hup_in : In (up_proj expert) (tensors_of expert)) by (now left).
  assert (Hdown_in : In (down_proj expert) (tensors_of expert)) by (right; now left).
  pose proof (entries_from_set _ _ _ _ _ _ Hfrom Hlast Hup_in Hup) as F1.
  pose proof (entries_from_set _ _ _ _ _ _ F1 Hlast Hdown_in Hdown) as F2.
  assert (Hold : forall d0, entries_for seen d0 ->
                   (forall t, In t (tensors_of expert) ->
                              exists entry, dict_get d0 (name t) = Some entry) ->
                   entries_for (seen ++ [expert]) d0).
  { intros d0 Hs He e t Hin Ht. apply in_app_or in Hin.
    destruct Hin as [Hin | [<- | []]]; [exact (Hs e t Hin Ht) | exact (He t Ht)]. }
  destruct (gate_proj expert) as [g |] eqn:Eg.
  - apply bind_inv in H. destruct H as (gate & Hgate & H).
    apply ret_inj in H. subst d'.
    assert (Hg_in : In g (tensors_of expert))
      by (unfold tensors_of; rewrite Eg; right; right; now left).
    split; [now apply (entries_from_set _ _ _ _ _ _ F2 Hlast Hg_in Hgate)|].
    apply Hold; [now repeat apply entries_for_set|].
    intros t Ht. unfold tensors_of in Ht. rewrite Eg in Ht.
    destruct Ht as [<- | [<- | [<- | []]]].
    + destruct (string_dec (name (up_proj expert)) (name g)) as [E | Hne];
        [rewrite E, dict_get_set_same; eauto|].
      rewrite dict_get_set_other by assumption.
      destruct (string_dec (name (up_proj expert)) (name (down_proj expert)))
        as [E | Hne']; [rewrite E, dict_get_set_same; eauto|].
      rewrite dict_get_set_other by assumption.
      rewrite dict_get_set_same. eauto.
    + destruct (string_dec (name (down_proj expert)) (name g)) as [E | Hne];
        [rewrite E, dict_get_set_same; eauto|].
      rewrite dict_get_set_other by assumption.
      rewrite dict_get_set_same. eauto.
    + rewrite dict_get_set_same. eauto.
  - apply ret_inj in H. subst d'. split; [exact F2|].
    apply Hold; [now repeat apply entries_for_set|].
    intros t Ht. unfold tensors_of in Ht. rewrite Eg in Ht.
    destruct Ht as [<- | [<- | []]].
    + destruct (string_dec (name (up_proj expert)) (name (down_proj expert)))
        as [E | Hne']; [rewrite E, dict_get_set_same; eauto|].
      rewrite dict_get_set_other by assumption.
      rewrite dict_get_set_same. eauto.
    + rewrite dict_get_set_same. eauto.
Qed.

Lemma export_fold_inv (config : AtomicExpertConfig) (experts seen : list ExpertTensor)
    (d d' : list (string * ManifestEntry)) :
  entries_from config seen d -> entries_for seen d ->
  foldM (export_expert config) experts d = ret d' ->
  entries_from config (seen ++ experts) d' /\ entries_for (seen ++ experts) d'.
Proof.
  revert seen d. induction experts as [| e experts IH]; intros seen d Hfrom Hfor H;
    cbn [foldM] in H.
  - apply ret_inj in H. subst d'. now rewrite app_nil_r.
  - apply bind_inv in H. destruct H as (d1 & H1 & H).
    destruct (export_expert_inv _ _ _ _ _ Hfrom Hfor H1) as [F G].
    specialize (IH _ _ F G H). now rewrite <- app_assoc in IH.
Qed.

(** X19. In the manifest that [export_safetensors_manifest] returns,
    every tensor of every expert has an entry under its name, and every
    entry has the configuration's expert precision as its dtype
    (whatever the tensor's own precision), offsets that start at 0, and
    the shape and [size_bytes] of some exported tensor of that name. *)
Theorem manifest_entries_are_the_experts_tensors (config : AtomicExpertConfig)
    (experts : list ExpertTensor) (manifest : Manifest) :
  export_safetensors_manifest config experts = ret manifest ->
  (forall expert t,
      In expert experts -> In t (tensors_of expert) ->
      exists entry, dict_get (tensors manifest) (name t) = Some entry)
  /\ (forall key entry,
        dict_get (tensors manifest) key = Some entry ->
        dtype entry = precision_value (expert_precision config)
        /\ fst (data_offsets entry) = 0
        /\ exists expert t,
             In expert experts /\ In t (tensors_of expert) /\ name t = key
             /\ entry_shape entry = shape t
             /\ size_bytes t = ret (snd (data_offsets entry))).
Proof.
  unfold export_safetensors_manifest. intro H.
  apply bind_inv in H. destruct H as (d & Hd & H).
  apply ret_inj in H. subst manifest. cbn [tensors].
  destruct (export_fold_inv config experts [] [] d) as [F G];
    [intros key entry Hget; discriminate Hget
    | intros e t []
    | exact Hd |].
  cbn [app] in F, G. split; [exact G|].
  intros key entry Hget.
  destruct (F key entry Hget) as (expert & t & Hin & Ht & Hname & He).
  unfold manifest_entry in He.
  apply bind_inv in He. destruct He as (size & Hsize & He).
  apply ret_inj in He. subst entry. cbn.
  repeat split. exists expert, t. auto.
Qed.

Lemma manifest_entries_are_the_experts_tensors_witness :
  exists manifest,
    export_safetensors_manifest default_expert_config
      (build_all_experts default_expert_config ["expert-0"; "expert-1"]%string)
    = ret manifest
    /\ dict_get (tensors manifest) "expert-1.down_proj"
       = Some {| dtype := "int4";
                 entry_shape := [2048; 512];
                 data_offsets := (0, 524288) |}
    /\ (forall key entry,
          dict_get (tensors manifest) key = Some entry ->
          dtype entry = "int4"%string /\ fst (data_offsets entry) = 0).
Proof.
  eexists. split; [vm_compute; reflexivity|].
  split; [reflexivity|].
  intros key entry Hget.
  match type of Hget with
  | dict_get (tensors ?m) _ = _ =>
      destruct (proj2 (manifest_entries_are_the_experts_tensors
                         default_expert_config
                         (build_all_experts default_expert_config
                            ["expert-0"; "expert-1"]%string)
                         m ltac:(vm_compute; reflexivity)) key entry Hget)
        as (Hd & H0 & _)
  end.
  split; assumption.
Defined.

(** ** Values that are not finite *)

Lemma quantize_value_non_finite (scale : PyFloat.float) (zp : Z) (p : Precision)
    (v : PyFloat.float) :
  non_finite v = true ->
  exists e, quantize_value scale zp p v = raise e.
Proof.
  intro Hv. unfold quantize_value, PyFloat.div.
  destruct (PyFloat.is_zero scale); [now exists ZeroDivisionError|].
  cbn [bind ret].
  destruct v as [s | s | | s m e]; try discriminate Hv;
    destruct scale as [s' | s' | | s' m' e']; cbn; eauto.
Qed.

(** X20. [quantize_tensor] raises, for every precision kind, on every
    list that holds an infinity or a NaN. *)
Theorem quantize_tensor_rejects_non_finite (values : list PyFloat.float)
    (p : Precision) (v : PyFloat.float) :
  In v values ->
  non_finite v = true ->
  exists e, quantize_tensor values p = raise e.
Proof.
  intros Hin Hv. unfold quantize_tensor.
  destruct values as [| v0 vs]; [destruct Hin|].
  cbn [py_min py_max bind ret].
  destruct (compute_scale_zp _ _ p) as [e | [scale zp]]; [now exists e|].
  cbn [bind].
  destruct (quantize_value_non_finite scale zp p v Hv) as [e He].
  destruct (mapM_raises _ _ _ _ Hin He) as [e' ->]. now exists e'.
Qed.

Lemma quantize_tensor_rejects_non_finite_witness :
  In S754_nan [PyFloat.zero; S754_nan; PyFloat.one]
  /\ exists e, quantize_tensor [PyFloat.zero; S754_nan; PyFloat.one] INT8 = raise e.
Proof.
  assert (H : In S754_nan [PyFloat.zero; S754_nan; PyFloat.one])
    by (right; left; reflexivity).
  split; [exact H|].
  exact (quantize_tensor_rejects_non_finite _ INT8 S754_nan H eq_refl).
Defined.

(** ** The order of the manifest *)

Lemma dict_set_fresh {V : Type} (d : list (string * V)) (key : string) (value : V) :
  ~ In key (map fst d) -> dict_set d key value = d ++ [(key, value)].
Proof.
  induction d as [| [k v] d IH]; cbn [dict_set map fst In app]; intro H;
    [reflexivity|].
  destruct (String.eqb_spec k key) as [E | _]; [now destruct H; left|].
  rewrite IH; [reflexivity | tauto].
Qed.

Section TensorNames.

Local Open Scope string_scope.

(** The last six characters of a name tell the three tensors apart. *)
Lemma last_six (t u1 u2 : string) :
  String.length u2 = 6%nat ->
  substring (String.length (t ++ u1 ++ u2) - 6) 6 (t ++ u1 ++ u2) = u2.
Proof.
  intro H6. rewrite <- !app_assoc_string.
  rewrite (string_length_app ((t ++ u1)) u2), H6.
  replace (String.length (t ++ u1) + 6 - 6)%nat with (String.length (t ++ u1)) by lia.
  rewrite <- H6. apply substring_app_r.
Qed.

Lemma app_inv_tail_string (a b s : string) : a ++ s = b ++ s -> a = b.
Proof.
  intro H. rewrite <- (drop_last_app a s), <- (drop_last_app b s). now rewrite H.
Qed.

Lemma app_inv_head_string (a s t : string) : a ++ s = a ++ t -> s = t.
Proof.
  induction a as [| c a IH]; cbn; intro H; [assumption|].
  injection H as H. now apply IH.
Qed.

Lemma tensor_names_inj (id id' n : string) :
  In n (tensor_names id) -> In n (tensor_names id') -> id = id'.
Proof.
  unfold tensor_names. intros H H'.
  pose proof (last_six id ".u" "p_proj" eq_refl) as Lu.
  pose proof (last_six id ".dow" "n_proj" eq_refl) as Ld.
  pose proof (last_six id ".gat" "e_proj" eq_refl) as Lg.
  pose proof (last_six id' ".u" "p_proj" eq_refl) as Lu'.
  pose proof (last_six id' ".dow" "n_proj" eq_refl) as Ld'.
  pose proof (last_six id' ".gat" "e_proj" eq_refl) as Lg'.
  cbn [append] in Lu, Ld, Lg, Lu', Ld', Lg'.
  destruct H as [<- | [<- | [<- | []]]]; destruct H' as [E | [E | [E | []]]];
    try (now apply app_inv_tail_string in E);
    exfalso; rewrite <- E in *; congruence.
Qed.

Lemma tensor_names_NoDup (id : string) : NoDup (tensor_names id).
Proof.
  unfold tensor_names.
  repeat constructor; cbn [In]; intro H;
    repeat (destruct H as [H | H]; [apply app_inv_head_string in H; discriminate H|]);
    exact H.
Qed.

End TensorNames.

Lemma tensor_names_build_expert (config : AtomicExpertConfig) (id : string) :
  map name (tensors_of (build_expert config id)) = tensor_names id.
Proof. reflexivity. Qed.

(** One pass of the loop adds the three names of a new expert at the end. *)
Lemma export_expert_fresh (config : AtomicExpertConfig) (id : string)
    (d d' : list (string * ManifestEntry)) :
  (forall n, In n (tensor_names id) -> ~ In n (map fst d)) ->
  export_expert config d (build_expert config id) = ret d' ->
  map fst d' = map fst d ++ tensor_names id.
Proof.
  intros Hfresh H. unfold export_expert in H.
  apply bind_inv in H. destruct H as (up & _ & H).
  apply bind_inv in H. destruct H as (down & _ & H).
  cbn [gate_proj build_expert] in H.
  apply bind_inv in H. destruct H as (gate & _ & H).
  apply ret_inj in H. subst d'.
  cbn [up_proj down_proj build_expert name] in *.
  pose proof (tensor_names_NoDup id) as Hnd. unfold tensor_names in Hnd, Hfresh.
  inversion Hnd as [| ? ? Hu Hnd']; subst. inversion Hnd' as [| ? ? Hdn _]; subst.
  cbn [In] in Hu, Hdn, Hfresh.
  rewrite (dict_set_fresh d) by (apply Hfresh; auto).
  rewrite (dict_set_fresh (d ++ [_])).
  2:{ rewrite map_app, in_app_iff. cbn [map fst In].
      intros [Hin | [E | []]]; [apply (Hfresh _ (or_intror (or_introl eq_refl)) Hin)|].
      apply Hu. left. now symmetry. }
  rewrite dict_set_fresh.
  2:{ rewrite !map_app, !in_app_iff. cbn [map fst In].
      intros [[Hin | [E | []]] | [E | []]].
      - apply (Hfresh _ (or_intror (or_intror (or_introl eq_refl))) Hin).
      - apply Hu. right. left. now symmetry.
      - apply Hdn. left. now symmetry. }
  rewrite !map_app. cbn [map fst]. unfold tensor_names.
  rewrite <- !app_assoc. reflexivity.
Qed.

Lemma export_fold_fresh (config : AtomicExpertConfig) (expert_ids : list string)
    (d d' : list (string * ManifestEntry)) :
  NoDup expert_ids ->
  (forall id n, In id expert_ids -> In n (tensor_names id) -> ~ In n (map fst d)) ->
  foldM (export_expert config) (build_all_experts config expert_ids) d = ret d' ->
  map fst d' = map fst d ++ flat_map tensor_names expert_ids.
Proof.
  unfold build_all_experts.
  revert d. induction expert_ids as [| id ids IH]; intros d Hnd Hfresh H;
    cbn [map foldM flat_map] in *.
  - apply ret_inj in H. subst d'. now rewrite app_nil_r.
  - apply bind_inv in H. destruct H as (d1 & H1 & H).
    inversion Hnd as [| ? ? Hid Hnd']; subst.
    pose proof (export_expert_fresh config id d d1
                  (fun n Hn => Hfresh id n (or_introl eq_refl) Hn) H1) as E1.
    rewrite (IH d1 Hnd'); [now rewrite E1, <- app_assoc | | exact H].
    intros id' n Hin Hn. rewrite E1, in_app_iff. intros [Hd | Hn'].
    + exact (Hfresh id' n (or_intror Hin) Hn Hd).
    + apply Hid. now rewrite (tensor_names_inj id id' n Hn' Hn).
Qed.

(** X21. For experts built by [build_all_experts] from pairwise distinct
    ids, the manifest of [export_safetensors_manifest] lists, in the
    order of the ids, the up, down and gate projection of each expert:
    three entries per id. *)
Theorem manifest_keys_of_distinct_experts (config : AtomicExpertConfig)
    (expert_ids : list string) (manifest : Manifest) :
  NoDup expert_ids ->
  export_safetensors_manifest config (build_all_experts config expert_ids)
  = ret manifest ->
  map fst (tensors manifest) = flat_map tensor_names expert_ids
  /\ List.length (tensors manifest) = (3 * List.length expert_ids)%nat.
Proof.
  intros Hnd H. unfold export_safetensors_manifest in H.
  apply bind_inv in H. destruct H as (d & Hd & H).
  apply ret_inj in H. subst manifest. cbn [tensors].
  pose proof (export_fold_fresh config expert_ids [] d Hnd
                (fun _ _ _ _ Hin => Hin) Hd) as E.
  cbn [map app] in E. split; [exact E|].
  rewrite <- (length_map fst), E.
  clear. induction expert_ids as [| id ids IH]; [reflexivity|].
  cbn [flat_map]. rewrite length_app, IH. cbn [tensor_names List.length]. lia.
Qed.

Lemma manifest_keys_of_distinct_experts_witness :
  NoDup ["expert-0"; "expert-1"]%string
  /\ exists manifest,
       export_safetensors_manifest default_expert_config
         (build_all_experts default_expert_config ["expert-0"; "expert-1"]%string)
       = ret manifest
       /\ map fst (tensors manifest)
          = ["expert-0.up_proj"; "expert-0.down_proj"; "expert-0.gate_proj";
             "expert-1.up_proj"; "expert-1.down_proj"; "expert-1.gate_proj"]%string.
Proof.
  assert (Hnd : NoDup ["expert-0"; "expert-1"]%string).
  { repeat constructor; cbn [In]; intro H;
      repeat (destruct H as [H | H]; [discriminate H|]); exact H. }
  split; [exact Hnd|].
  eexists. split; [vm_compute; reflexivity|].
  match goal with
  | |- map fst (tensors ?m) = _ =>
      exact (proj1 (manifest_keys_of_distinct_experts default_expert_config
                      ["expert-0"; "expert-1"]%string m Hnd
                      ltac:(vm_compute; reflexivity)))
  end.
Defined.
